(** * element-web: recovery settings panels and the voice-message composer

    A shallow embedding of the view-controllers

    - [RecoveryPanel]      (components/views/settings/encryption/RecoveryPanel.tsx)
    - [ChangeRecoveryKey]  (components/views/settings/encryption/ChangeRecoveryKey.tsx)
    - [VoiceRecordComposerTile] (components/views/rooms/VoiceRecordComposerTile.tsx)

    Handlers are [async] functions that call external collaborators (the
    crypto API, the recording store, the recorder).  They are embedded in a
    small monad that threads the component instance together with the log of
    effects performed so far, and in which an awaited promise resolves,
    rejects or never settles.  A handler runs from its start to its end or
    to the [await] it is left at; two handlers are not interleaved. *)

From Stdlib Require Import Ascii String List Bool Arith ZArith NArith Lia.
Import ListNotations.

Set Implicit Arguments.

(* ------------------------------------------------------------------ *)
(** ** JavaScript strings *)

Module JS.

(** A JavaScript string is a sequence of UTF-16 code units. *)
Definition DOMString : Type := list N.

(** ECMAScript [WhiteSpace]: TAB, VT, FF, SP, NBSP, ZWNBSP and the
    code points of category Zs. *)
Definition isWhiteSpace (c : N) : bool :=
  ((c =? 9) || (c =? 11) || (c =? 12) || (c =? 32) || (c =? 160)
   || (c =? 5760) || ((8192 <=? c) && (c <=? 8202))
   || (c =? 8239) || (c =? 8287) || (c =? 12288) || (c =? 65279))%N.

(** ECMAScript [LineTerminator]: LF, CR, LS, PS. *)
Definition isLineTerminator (c : N) : bool :=
  ((c =? 10) || (c =? 13) || (c =? 8232) || (c =? 8233))%N.

Definition isTrimmed (c : N) : bool := isWhiteSpace c || isLineTerminator c.

Fixpoint trimStart (s : DOMString) : DOMString :=
  match s with
  | [] => []
  | c :: r => if isTrimmed c then trimStart r else s
  end.

Definition trimEnd (s : DOMString) : DOMString := rev (trimStart (rev s)).

(** [String.prototype.trim] *)
Definition trim (s : DOMString) : DOMString := trimEnd (trimStart s).

(** [===] on two strings: the same sequence of code units. *)
Fixpoint strictEquals (a b : DOMString) : bool :=
  match a, b with
  | [], [] => true
  | x :: a', y :: b' => (x =? y)%N && strictEquals a' b'
  | _, _ => false
  end.

(** Truthiness of a string: the empty string is falsy. *)
Definition truthy (s : DOMString) : bool :=
  match s with [] => false | _ :: _ => true end.

(** Code units of an ASCII literal. *)
Fixpoint ofAscii (s : string) : DOMString :=
  match s with
  | EmptyString => []
  | String c r => N_of_ascii c :: ofAscii r
  end.

End JS.

(* ------------------------------------------------------------------ *)
(** ** Asynchronous handlers *)

Module Async.

(** What a [throw] or a rejected promise carries. *)
Inductive Exn : Type :=
| JsError (message : string)
| Thrown (tag : nat).

(** The fate of an awaited promise (or of a call that may throw). *)
Inductive Outcome (A : Type) : Type :=
| Resolved (a : A)
| Rejected (e : Exn)
| Pending.
Arguments Rejected {A} e.
Arguments Pending {A}.

Section Monad.
Variable S : Type.

Definition M (A : Type) : Type := S -> Outcome A * S.

Definition ret {A} (a : A) : M A := fun s => (Resolved a, s).

Definition bind {A B} (m : M A) (k : A -> M B) : M B :=
  fun s =>
    match m s with
    | (Resolved a, s') => k a s'
    | (Rejected e, s') => (Rejected e, s')
    | (Pending, s') => (Pending, s')
    end.

Definition throw {A} (e : Exn) : M A := fun s => (Rejected e, s).

(** [await p]: continue with the value, rethrow the rejection, or
    stay suspended for good. *)
Definition await {A} (p : Outcome A) : M A := fun s => (p, s).

(** [try { m } catch (e) { h e }] *)
Definition try_catch {A} (m : M A) (h : Exn -> M A) : M A :=
  fun s =>
    match m s with
    | (Rejected e, s') => h e s'
    | r => r
    end.

(** [try { m } finally { f }] *)
Definition try_finally {A} (m : M A) (f : M unit) : M A :=
  fun s =>
    match m s with
    | (Pending, s') => (Pending, s')
    | (r, s') =>
        match f s' with
        | (Resolved _, s'') => (r, s'')
        | (Rejected e, s'') => (Rejected e, s'')
        | (Pending, s'') => (Pending, s'')
        end
    end.

Definition gets {A} (f : S -> A) : M A := fun s => (Resolved (f s), s).
Definition modify (f : S -> S) : M unit := fun s => (Resolved tt, f s).

(** The instance a handler leaves behind, whatever its promise does. *)
Definition exec {A} (m : M A) (s : S) : S := snd (m s).

(** Two handlers of one event: [k] runs after [m], whatever [m] did. *)
Definition also {A B} (m : M A) (k : M B) : M B := fun s => k (snd (m s)).
End Monad.

(** [m] takes every instance to one related to it by [R], whatever its
    outcome. *)
Definition within {S : Type} (R : S -> S -> Prop) {A} (m : M S A) : Prop :=
  forall s, R s (snd (m s)).

Arguments ret {S A} a.
Arguments throw {S A} e.
Arguments await {S A} p.
Arguments gets {S A} f.
Arguments modify {S} f.

Module Notations.
Notation "x <- m ;; k" := (bind m (fun x => k))
  (at level 61, m at next level, right associativity).
Notation "m ;;; k" := (bind m (fun _ => k))
  (at level 61, right associativity).
End Notations.

End Async.

Import Async Async.Notations.

(* ------------------------------------------------------------------ *)
(** ** RecoveryPanel *)

Module Recovery.

(** [type State = "loading" | "missing_backup" | "secrets_not_cached" | "good"] *)
Inductive State : Type :=
| loading
| missing_backup
| secrets_not_cached
| good.

Record PrivateKeysCachedLocally : Type := {
  masterKey : bool;
  selfSigningKey : bool;
  userSigningKey : bool
}.

Record CrossSigningStatus : Type := {
  publicKeysOnDevice : bool;
  privateKeysInSecretStorage : bool;
  privateKeysCachedLocally : PrivateKeysCachedLocally
}.

(** The two probes of the crypto API, each given by what its promise does. *)
Record CryptoApi : Type := {
  getSessionBackupPrivateKey : Outcome (option (list N));
  getCrossSigningStatus : Outcome CrossSigningStatus
}.

Record MatrixClient : Type := {
  getCrypto : option CryptoApi
}.

(** Everything the panel does that is visible from outside. *)
Inductive Effect : Type :=
| CallGetSessionBackupPrivateKey
| CallGetCrossSigningStatus
| SetState (s : State)
| CallAccessSecretStorage
| OnSetUpRecoveryClick
| OnChangingRecoveryKeyClick.

Record Panel : Type := {
  state : State;
  effects : list Effect
}.

Definition emit (e : Effect) : M Panel unit :=
  modify (fun p => {| state := state p; effects := effects p ++ [e] |}).

Definition setState (s : State) : M Panel unit :=
  modify (fun p => {| state := s; effects := effects p ++ [SetState s] |}).

(** [Boolean(v)] for [v : Uint8Array | null]: an object is truthy, even
    an empty array. *)
Definition Boolean (v : option (list N)) : bool :=
  match v with
  | None => false
  | Some _ => true
  end.

Definition checkEncryption (matrixClient : MatrixClient) : M Panel unit :=
  match getCrypto matrixClient with
  | None => ret tt
  | Some crypto =>
      emit CallGetSessionBackupPrivateKey ;;;
      key <- await (getSessionBackupPrivateKey crypto) ;;
      let hasBackup := Boolean key in
      if negb hasBackup then setState missing_backup
      else
        emit CallGetCrossSigningStatus ;;;
        status <- await (getCrossSigningStatus crypto) ;;
        let cachedSecrets := privateKeysCachedLocally status in
        let secretsOk :=
          masterKey cachedSecrets && selfSigningKey cachedSecrets
          && userSigningKey cachedSecrets in
        if negb secretsOk then setState secrets_not_cached
        else setState good
  end.

(** [useState<State>("loading")], then the mount effect runs the check. *)
Definition initial : Panel := {| state := loading; effects := [] |}.

Definition mount (matrixClient : MatrixClient) : Panel :=
  exec (checkEncryption matrixClient) initial.

(** Modelled from the spec: [accessSecretStorage] of SecurityManager, which
    is not among the sources.  "Secret storage access:
    accessSecretStorage(onSuccess)"; the re-check function is invoked
    "after a successful secret-storage unlock".  [unlock] is what the
    unlock does. *)
Definition accessSecretStorage (unlock : Outcome unit) (func : M Panel unit)
  : M Panel unit :=
  emit CallAccessSecretStorage ;;;
  await unlock ;;;
  func.

(** A click on what the panel renders in its current state: a spinner
    while loading, one button otherwise. *)
Definition onClick (matrixClient : MatrixClient) (unlock : Outcome unit)
  : M Panel unit :=
  s <- gets state ;;
  match s with
  | loading => ret tt
  | missing_backup => emit OnSetUpRecoveryClick
  | secrets_not_cached => accessSecretStorage unlock (checkEncryption matrixClient)
  | good => emit OnChangingRecoveryKeyClick
  end.

(** A run of clicks, each with what the unlock would do at that time. *)
Fixpoint clicks (matrixClient : MatrixClient) (us : list (Outcome unit))
  (p : Panel) : Panel :=
  match us with
  | [] => p
  | u :: us' => clicks matrixClient us' (exec (onClick matrixClient u) p)
  end.

(** What the panel shows (lines 68-111 and 123-134): the content of the
    section, whether the header carries the "recommended" tag, and whether
    the subheader is the key-storage warning. *)
Inductive Content : Type :=
| InlineSpinner
| SetUpRecoveryButton
| EnterRecoveryKeyButton
| ChangeRecoveryKeyButton.

Record View : Type := {
  content : Content;
  hasRecommendedTag : bool;
  keyStorageWarning : bool
}.

Definition render (p : Panel) : View :=
  {| content :=
       match state p with
       | loading => InlineSpinner
       | missing_backup => SetUpRecoveryButton
       | secrets_not_cached => EnterRecoveryKeyButton
       | good => ChangeRecoveryKeyButton
       end;
     hasRecommendedTag :=
       match state p with
       | missing_backup => true
       | _ => false
       end;
     keyStorageWarning :=
       match state p with
       | secrets_not_cached => true
       | _ => false
       end |}.

(** All three private keys are cached locally. *)
Definition allCached (status : CrossSigningStatus) : bool :=
  masterKey (privateKeysCachedLocally status)
  && selfSigningKey (privateKeysCachedLocally status)
  && userSigningKey (privateKeysCachedLocally status).

(** A client whose crypto API answers the two probes as given, and a
    cross-signing status with the given cache flags. *)
Definition clientWith (probe1 : Outcome (option (list N)))
  (probe2 : Outcome CrossSigningStatus) : MatrixClient :=
  {| getCrypto := Some {| getSessionBackupPrivateKey := probe1;
                          getCrossSigningStatus := probe2 |} |}.

Definition statusWith (m s u : bool) : CrossSigningStatus :=
  {| publicKeysOnDevice := true;
     privateKeysInSecretStorage := true;
     privateKeysCachedLocally :=
       {| masterKey := m; selfSigningKey := s; userSigningKey := u |} |}.

End Recovery.


(* ------------------------------------------------------------------ *)
(** ** ChangeRecoveryKey *)

Module ChangeKey.

(** [type State = "inform_user" | "save_key_setup_flow" | "save_key_change_flow" | "confirm"] *)
Inductive State : Type :=
| inform_user
| save_key_setup_flow
| save_key_change_flow
| confirm.

(** What [createRecoveryKeyFromPassphrase] resolves to; the encoded form
    is an optional field. *)
Record GeneratedSecretStorageKey : Type := {
  privateKey : list N;
  encodedPrivateKey : option JS.DOMString
}.

(** The options object handed to [bootstrapSecretStorage];
    [createSecretStorageKey] is the key its callback resolves to. *)
Record BootstrapOpts : Type := {
  setupNewKeyBackup : bool;
  setupNewSecretStorage : bool;
  createSecretStorageKey : GeneratedSecretStorageKey
}.

Record CryptoApi : Type := {
  createRecoveryKeyFromPassphrase : Outcome GeneratedSecretStorageKey;
  bootstrapSecretStorage : BootstrapOpts -> Outcome unit
}.

(** The client of the context at one moment: [getCrypto()] may answer
    differently at different times. *)
Record MatrixClient : Type := {
  getCrypto : option CryptoApi
}.

(** The callbacks are given by what calling them does. *)
Record ChangeRecoveryKeyProps : Type := {
  isSetupFlow : bool;
  onFinish : Outcome unit;
  onCancelClick : Outcome unit
}.

Inductive Effect : Type :=
| CallCreateRecoveryKeyFromPassphrase
| EnableSecretStorageKeyCache
| DisableSecretStorageKeyCache
| CallBootstrapSecretStorage (opts : BootstrapOpts)
| CallOnFinish
| CallOnCancelClick
| SetState (s : State)
| SetIsKeyValid (b : bool)
| LoggerError (message : string) (e : Exn).

(** The hook cells of one mounted wizard, with the log of its effects.
    [recoveryKey] is the cell of the async memo: [None] before the first
    render, then the dependency list and the value.  [isKeyValid] is the
    state cell of the [KeyForm] child, [undefined] "as the key is not
    filled yet"; the child is mounted on entering [confirm], which no
    transition leaves. *)
Record Instance : Type := {
  state : State;
  recoveryKey : option (list nat * option GeneratedSecretStorageKey);
  isKeyValid : option bool;
  effects : list Effect
}.

Definition emit (e : Effect) : M Instance unit :=
  modify (fun i => {| state := state i; recoveryKey := recoveryKey i;
                      isKeyValid := isKeyValid i; effects := effects i ++ [e] |}).

Definition setState (s : State) : M Instance unit :=
  modify (fun i => {| state := s; recoveryKey := recoveryKey i;
                      isKeyValid := isKeyValid i;
                      effects := effects i ++ [SetState s] |}).

Definition setIsKeyValid (b : bool) : M Instance unit :=
  modify (fun i => {| state := state i; recoveryKey := recoveryKey i;
                      isKeyValid := Some b;
                      effects := effects i ++ [SetIsKeyValid b] |}).

Definition storeMemo (deps : list nat) (v : option GeneratedSecretStorageKey)
  (i : Instance) : Instance :=
  {| state := state i; recoveryKey := Some (deps, v);
     isKeyValid := isKeyValid i; effects := effects i |}.

(** Modelled from the spec: the [useAsyncMemo] hook (hooks/useAsyncMemo is
    not among the sources).  "A fresh recovery key is generated once per
    flow activation via the crypto collaborator and reused across all
    states"; it is "stable across re-renders within one flow activation (not
    regenerated on state transition)".  The factory runs at the first render,
    and again only when the dependency list differs from the one of the
    previous render; the value is [undefined] unless the factory's promise
    resolved.  Nothing is rendered while the value is [undefined], so the
    settling of the promise is folded into the render that started it. *)
Definition useAsyncMemo (fn : M Instance (option GeneratedSecretStorageKey))
  (deps : list nat) : M Instance (option GeneratedSecretStorageKey) :=
  fun i =>
    let run :=
      match fn i with
      | (Resolved v, i') => (Resolved v, storeMemo deps v i')
      | (_, i') => (Resolved None, storeMemo deps None i')
      end in
    match recoveryKey i with
    | Some (deps', v) =>
        if list_eq_dec Nat.eq_dec deps' deps then (Resolved v, i) else run
    | None => run
    end.

(** Modelled from the spec: [withSecretStorageKeyCache] of SecurityManager,
    which is not among the sources: "scoped key-cache enable/disable around
    [fn]". *)
Definition withSecretStorageKeyCache {A} (fn : M Instance A) : M Instance A :=
  emit EnableSecretStorageKeyCache ;;;
  try_finally fn (emit DisableSecretStorageKeyCache).

Definition callOnFinish (props : ChangeRecoveryKeyProps) : M Instance unit :=
  emit CallOnFinish ;;; await (onFinish props).

Definition callOnCancelClick (props : ChangeRecoveryKeyProps) : M Instance unit :=
  emit CallOnCancelClick ;;; await (onCancelClick props).

(** The factory of the memo (lines 68-73). *)
Definition createRecoveryKey (matrixClient : MatrixClient)
  : M Instance (option GeneratedSecretStorageKey) :=
  match getCrypto matrixClient with
  | None => ret None
  | Some crypto =>
      emit CallCreateRecoveryKeyFromPassphrase ;;;
      k <- await (createRecoveryKeyFromPassphrase crypto) ;;
      ret (Some k)
  end.

Definition bootstrapOpts (props : ChangeRecoveryKeyProps)
  (recoveryKey : GeneratedSecretStorageKey) : BootstrapOpts :=
  {| setupNewKeyBackup := isSetupFlow props;
     setupNewSecretStorage := true;
     createSecretStorageKey := recoveryKey |}.

(** The [onSubmit] closure handed to [KeyForm] (lines 102-120). *)
Definition onSubmit (props : ChangeRecoveryKeyProps) (matrixClient : MatrixClient)
  (recoveryKey : GeneratedSecretStorageKey) : M Instance unit :=
  match getCrypto matrixClient with
  | None => callOnFinish props
  | Some crypto =>
      try_catch
        (withSecretStorageKeyCache
           (emit (CallBootstrapSecretStorage (bootstrapOpts props recoveryKey)) ;;;
            await (bootstrapSecretStorage crypto (bootstrapOpts props recoveryKey))) ;;;
         callOnFinish props)
        (fun e => emit (LoggerError "Failed to bootstrap secret storage" e))
  end.

(** What the wizard renders, with the closures it hands to the panel. *)
Inductive Content : Type :=
| InformationPanel (onContinueClick onCancel : M Instance unit)
| KeyPanel (recoveryKey : JS.DOMString) (onConfirmClick onCancel : M Instance unit)
| KeyForm (recoveryKey : JS.DOMString) (onCancel onSubmitForm : M Instance unit).

(** The key a rendered panel shows or compares against. *)
Definition contentKey (c : Content) : option JS.DOMString :=
  match c with
  | InformationPanel _ _ => None
  | KeyPanel k _ _ => Some k
  | KeyForm k _ _ => Some k
  end.

(** [useState<State>(isSetupFlow ? "inform_user" : "save_key_change_flow")] *)
Definition initial (props : ChangeRecoveryKeyProps) : Instance :=
  {| state := if isSetupFlow props then inform_user else save_key_change_flow;
     recoveryKey := None;
     isKeyValid := None;
     effects := [] |}.

(** What the body returns for the memo value and the state of this render
    (lines 75-123): nothing until there is an encoded key, then the panel
    of the state. *)
Definition render (props : ChangeRecoveryKeyProps) (matrixClient : MatrixClient)
  (recoveryKey : option GeneratedSecretStorageKey) (st : State) : option Content :=
  match recoveryKey with
  | None => None
  | Some key =>
      match encodedPrivateKey key with
      | None => None
      | Some encoded =>
          if negb (JS.truthy encoded) then None
          else
            Some
              match st with
              | inform_user =>
                  InformationPanel (setState save_key_setup_flow)
                                   (callOnCancelClick props)
              | save_key_setup_flow
              | save_key_change_flow =>
                  KeyPanel encoded (setState confirm) (callOnCancelClick props)
              | confirm =>
                  KeyForm encoded (callOnCancelClick props)
                          (onSubmit props matrixClient key)
              end
      end
  end.

(** The body of the function component: the hooks, then what is rendered. *)
Definition ChangeRecoveryKey (props : ChangeRecoveryKeyProps)
  (matrixClient : MatrixClient) : M Instance (option Content) :=
  st <- gets state ;;
  recoveryKey <- useAsyncMemo (createRecoveryKey matrixClient) [] ;;
  ret (render props matrixClient recoveryKey st).

(** *** KeyForm *)

(** The [onChange] handler of the form (lines 299-306). *)
Definition KeyForm_onChange (recoveryKey filledKey : JS.DOMString)
  : M Instance unit :=
  setIsKeyValid (JS.strictEquals (JS.trim filledKey) recoveryKey).

(** [isKeyValid === false] *)
Definition isKeyInvalidAndFilled (i : Instance) : bool :=
  match isKeyValid i with
  | Some false => true
  | _ => false
  end.

(** [disabled={!isKeyValid}]: [undefined] and [false] are falsy. *)
Definition submitDisabled (i : Instance) : bool :=
  negb match isKeyValid i with
       | Some b => b
       | None => false
       end.

(** *** The wizard as a machine *)

Inductive UserEvent : Type :=
| ClickContinue
| ClickCancel
| ChangeInput (filledKey : JS.DOMString)
| Submit.

(** The handler a user event reaches in what is rendered.  The confirm form
    is submitted by its submit button and by the Enter key, and its handler
    (lines 295-298) runs [onSubmit] whatever the form holds.  Its Cancel
    button (line 318) is a button of the form that is given no type, so a
    click on it runs its click handler and then submits the form as well. *)
Definition dispatch (c : Content) (ev : UserEvent) : M Instance unit :=
  match c, ev with
  | InformationPanel onContinueClick _, ClickContinue => onContinueClick
  | InformationPanel _ onCancel, ClickCancel => onCancel
  | KeyPanel _ onConfirmClick _, ClickContinue => onConfirmClick
  | KeyPanel _ _ onCancel, ClickCancel => onCancel
  | KeyForm _ onCancel onSubmitForm, ClickCancel => also onCancel onSubmitForm
  | KeyForm recoveryKey _ _, ChangeInput filledKey =>
      KeyForm_onChange recoveryKey filledKey
  | KeyForm _ _ onSubmitForm, Submit => onSubmitForm
  | _, _ => ret tt
  end.

(** The activation: the first render. *)
Definition mount (props : ChangeRecoveryKeyProps) (matrixClient : MatrixClient)
  : Instance :=
  exec (ChangeRecoveryKey props matrixClient) (initial props).

(** One user event at a moment when the client is [matrixClient]: render,
    then run the handler the event reaches. *)
Definition step (props : ChangeRecoveryKeyProps)
  (cev : MatrixClient * UserEvent) (i : Instance) : Instance :=
  match ChangeRecoveryKey props (fst cev) i with
  | (Resolved (Some content), i') => exec (dispatch content (snd cev)) i'
  | (_, i') => i'
  end.

Definition run (props : ChangeRecoveryKeyProps)
  (evs : list (MatrixClient * UserEvent)) (i : Instance) : Instance :=
  fold_left (fun i cev => step props cev i) evs i.

(** How often a log asks the crypto API for a new recovery key. *)
Definition generations (l : list Effect) : nat :=
  length (filter (fun e => match e with
                           | CallCreateRecoveryKeyFromPassphrase => true
                           | _ => false
                           end) l).

(** The generated key held by the memo, if any. *)
Definition generatedKey (i : Instance) : option GeneratedSecretStorageKey :=
  match recoveryKey i with
  | Some (_, v) => v
  | None => None
  end.

(** What the memo holds once the factory's promise has settled. *)
Definition settled (matrixClient : MatrixClient)
  : option GeneratedSecretStorageKey :=
  match getCrypto matrixClient with
  | None => None
  | Some crypto =>
      match createRecoveryKeyFromPassphrase crypto with
      | Resolved k => Some k
      | _ => None
      end
  end.

(** [i'] still holds the memo of [i], its log asks for no further key, every
    bootstrap its log adds commits the key [v], and it has not gone back to
    the introductory screen. *)
Definition keeps (v : option GeneratedSecretStorageKey) (i i' : Instance) : Prop :=
  recoveryKey i' = recoveryKey i
  /\ generations (effects i') = generations (effects i)
  /\ (forall opts,
         In (CallBootstrapSecretStorage opts) (effects i') ->
         In (CallBootstrapSecretStorage opts) (effects i)
         \/ v = Some (createSecretStorageKey opts))
  /\ (state i' = state i \/ state i' <> inform_user).

(** The effects that [keeps v] allows a handler to log. *)
Definition allowed (v : option GeneratedSecretStorageKey) (e : Effect) : Prop :=
  match e with
  | CallCreateRecoveryKeyFromPassphrase => False
  | CallBootstrapSecretStorage opts => v = Some (createSecretStorageKey opts)
  | _ => True
  end.

(** *** Labels (lines 125-188) *)

(** A translated string is taken as its key, with the variables it is
    given. *)
Record Labels : Type := {
  title : string;
  description : string * list (string * string)
}.

Definition getLabels (st : State) : Labels :=
  match st with
  | inform_user =>
      {| title := "settings|encryption|recovery|set_up_recovery"%string;
         description :=
           ("settings|encryption|recovery|set_up_recovery_description"%string,
            [("changeRecoveryKeyButton"%string,
              "settings|encryption|recovery|change_recovery_key"%string)]) |}
  | save_key_setup_flow =>
      {| title := "settings|encryption|recovery|set_up_recovery_save_key_title"%string;
         description :=
           ("settings|encryption|recovery|set_up_recovery_save_key_description"%string,
            []) |}
  | save_key_change_flow =>
      {| title := "settings|encryption|recovery|change_recovery_key_title"%string;
         description :=
           ("settings|encryption|recovery|change_recovery_key_description"%string, []) |}
  | confirm =>
      {| title := "settings|encryption|recovery|confirm_title"%string;
         description := ("settings|encryption|recovery|confirm_description"%string, []) |}
  end.

(** The pages of the breadcrumb. *)
Definition pages (props : ChangeRecoveryKeyProps) : list string :=
  [ "settings|encryption|title";
    if isSetupFlow props
    then "settings|encryption|recovery|set_up_recovery"
    else "settings|encryption|recovery|change_recovery_key" ]%string.

(** *** What runs of the wizard are measured with *)

(** How far a state is along the flow. *)
Definition rank (st : State) : nat :=
  match st with
  | inform_user => 0
  | save_key_setup_flow => 1
  | save_key_change_flow => 1
  | confirm => 2
  end.

(** The encoded key the body renders with, if it renders at all (line 75):
    an absent key, an absent encoding and an empty encoding render nothing. *)
Definition shownKey (v : option GeneratedSecretStorageKey)
  : option JS.DOMString :=
  match v with
  | None => None
  | Some key =>
      match encodedPrivateKey key with
      | None => None
      | Some encoded => if JS.truthy encoded then Some encoded else None
      end
  end.

(** One transition of the flow: stay, leave the introduction for the key of
    the setup flow, or leave a key screen for the confirmation. *)
Definition transition (st st' : State) : Prop :=
  st' = st
  \/ (st = inform_user /\ st' = save_key_setup_flow)
  \/ ((st = save_key_setup_flow \/ st = save_key_change_flow) /\ st' = confirm).

(** [i'] differs from [i] by its log at most. *)
Definition quiet (i i' : Instance) : Prop :=
  state i' = state i
  /\ recoveryKey i' = recoveryKey i
  /\ isKeyValid i' = isKeyValid i.

(** The effects a handler of the wizard of [props] that holds [v] may log:
    no further key generation, and a bootstrap only with the options of the
    flow and the key held. *)
Definition permitted (props : ChangeRecoveryKeyProps)
  (v : option GeneratedSecretStorageKey) (e : Effect) : Prop :=
  match e with
  | CallCreateRecoveryKeyFromPassphrase => False
  | CallBootstrapSecretStorage opts =>
      exists key, v = Some key /\ opts = bootstrapOpts props key
  | SetState st => st = save_key_setup_flow \/ st = confirm
  | _ => True
  end.

(** The log of [i'] is the log of [i] followed by permitted effects. *)
Definition follows (props : ChangeRecoveryKeyProps)
  (v : option GeneratedSecretStorageKey) (i i' : Instance) : Prop :=
  exists l, effects i' = effects i ++ l /\ Forall (permitted props v) l.


(** The form after the user changed the field to each of [inputs] in turn. *)
Definition typed (recoveryKey : JS.DOMString) (inputs : list JS.DOMString)
  (i : Instance) : Instance :=
  fold_left (fun i filledKey => exec (KeyForm_onChange recoveryKey filledKey) i)
            inputs i.

(** Sample values: a generated key, a client whose crypto API hands it out
    and whose bootstrap does [b], and the props of either flow. *)
Definition sampleKey : GeneratedSecretStorageKey :=
  {| privateKey := [7%N; 7%N];
     encodedPrivateKey := Some (JS.ofAscii "EsTc 5rr1") |}.

Definition sampleClient (b : Outcome unit) : MatrixClient :=
  {| getCrypto := Some {| createRecoveryKeyFromPassphrase := Resolved sampleKey;
                          bootstrapSecretStorage := fun _ => b |} |}.

Definition sampleProps (setup : bool) : ChangeRecoveryKeyProps :=
  {| isSetupFlow := setup;
     onFinish := Resolved tt;
     onCancelClick := Resolved tt |}.

End ChangeKey.


(* ------------------------------------------------------------------ *)
(** ** VoiceRecordComposerTile *)

Module Voice.

(** JavaScript numbers are taken abstractly, together with the helpers of
    utils/arrays, utils/numbers and voice/VoiceRecording the tile imports,
    which are not among the sources. *)
Class Numbers : Type := {
  number : Type;
  ofZ : Z -> number;
  half : number;
  times : number -> number -> number;
  round : number -> number;
  arraySeed : number -> nat -> list number;
  arrayFastResample : list number -> nat -> list number;
  percentageOf : number -> number -> number -> number;
  RECORDING_PLAYBACK_SAMPLES : nat
}.

(** The phases the tile distinguishes; the recorder may emit others. *)
Inductive RecordingState : Type :=
| Started
| EndingSoon
| Uploading
| OtherPhase (tag : nat).

Inductive Dialog : Type :=
| NoMicrophoneError
| MicrophoneAccessError.

Record IMediaDevices : Type := {
  audioinput : option (list string);
  audiooutput : option (list string);
  videoinput : option (list string)
}.

Record Room : Type := {
  roomId : string
}.

Section WithNumbers.
Context `{Numbers}.

(** The recorder handle: its asynchronous methods by what their promises
    do, its getters by their values. *)
Record VoiceRecording : Type := {
  start : Outcome unit;
  stop : Outcome unit;
  upload : Outcome JS.DOMString;
  durationSeconds : number;
  contentType : string;
  contentLength : number;
  playbackWaveform : list number;
  isRecording : bool
}.

Record IRecordingUpdate : Type := {
  update_waveform : list number;
  timeSeconds : number
}.

Record FileInfo : Type := {
  file_url : JS.DOMString;
  file_name : string;
  file_mimetype : string;
  file_size : number
}.

(** The content object of the message that is sent. *)
Record VoiceMessage : Type := {
  body : string;
  msgtype : string;
  url : JS.DOMString;
  info_duration : number;
  info_mimetype : string;
  info_size : number;
  msc1767_text : string;
  msc1767_file : FileInfo;
  msc1767_audio_duration : number;
  msc1767_audio_waveform : list number
}.

(** The collaborators at the moment a handler runs.  [sendMessage] is what
    the call itself does (it returns a promise, or throws); the promise it
    returns is not awaited. *)
Record World : Type := {
  getDevices : Outcome (option IMediaDevices);
  startRecording : Outcome VoiceRecording;
  storeDisposeRecording : Outcome unit;
  sendMessage : Outcome (Outcome unit)
}.

Inductive Effect : Type :=
| CallGetDevices
| CreateTrackedDialog (d : Dialog)
| ConsoleError (message : string) (e : Exn)
| StoreStartRecording
| StoreDisposeRecording
| RecorderStart
| RecorderStop
| RecorderUpload
| RecorderOn
| CallSendMessage (room : string) (content : VoiceMessage)
| RequestAnimationFrame
| SetStateRecorder (r : option VoiceRecording) (phase : option RecordingState)
| SetStatePhase (phase : RecordingState)
| SetStateLive (relHeights : list number) (seconds : number).

(** One mounted tile: [this.state], the private fields, the callbacks
    handed to [requestAnimationFrame] and not yet run (they are all the
    same closure, so their number), and the log of effects. *)
Record Tile : Type := {
  recorder : option VoiceRecording;
  recordingPhase : option RecordingState;
  relHeights : list number;
  seconds : number;
  waveform : list number;
  this_seconds : number;
  scheduledAnimationFrame : bool;
  frameCallbacks : nat;
  effects : list Effect
}.

(** The constructor. *)
Definition initial : Tile :=
  {| recorder := None;
     recordingPhase := None;
     relHeights := arraySeed (ofZ 0) RECORDING_PLAYBACK_SAMPLES;
     seconds := ofZ 0;
     waveform := [];
     this_seconds := ofZ 0;
     scheduledAnimationFrame := false;
     frameCallbacks := 0;
     effects := [] |}.

Definition log (e : Effect) (t : Tile) : Tile :=
  {| recorder := recorder t; recordingPhase := recordingPhase t;
     relHeights := relHeights t; seconds := seconds t;
     waveform := waveform t; this_seconds := this_seconds t;
     scheduledAnimationFrame := scheduledAnimationFrame t;
     frameCallbacks := frameCallbacks t;
     effects := effects t ++ [e] |}.

Definition emit (e : Effect) : M Tile unit := modify (log e).

(** [this.setState({recorder, recordingPhase})] *)
Definition setStateRecorder (r : option VoiceRecording)
  (phase : option RecordingState) : M Tile unit :=
  modify (fun t =>
    {| recorder := r; recordingPhase := phase;
       relHeights := relHeights t; seconds := seconds t;
       waveform := waveform t; this_seconds := this_seconds t;
       scheduledAnimationFrame := scheduledAnimationFrame t;
       frameCallbacks := frameCallbacks t;
       effects := effects t ++ [SetStateRecorder r phase] |}).

(** [this.setState({recordingPhase})] *)
Definition setStatePhase (phase : RecordingState) : M Tile unit :=
  modify (fun t =>
    {| recorder := recorder t; recordingPhase := Some phase;
       relHeights := relHeights t; seconds := seconds t;
       waveform := waveform t; this_seconds := this_seconds t;
       scheduledAnimationFrame := scheduledAnimationFrame t;
       frameCallbacks := frameCallbacks t;
       effects := effects t ++ [SetStatePhase phase] |}).

(** [this.setState({relHeights, seconds})] *)
Definition setStateLive (heights : list number) (secs : number) : M Tile unit :=
  modify (fun t =>
    {| recorder := recorder t; recordingPhase := recordingPhase t;
       relHeights := heights; seconds := secs;
       waveform := waveform t; this_seconds := this_seconds t;
       scheduledAnimationFrame := scheduledAnimationFrame t;
       frameCallbacks := frameCallbacks t;
       effects := effects t ++ [SetStateLive heights secs] |}).

(** [this.waveform = ...; this.seconds = ...] *)
Definition storeUpdate (update : IRecordingUpdate) : M Tile unit :=
  modify (fun t =>
    {| recorder := recorder t; recordingPhase := recordingPhase t;
       relHeights := relHeights t; seconds := seconds t;
       waveform := update_waveform update; this_seconds := timeSeconds update;
       scheduledAnimationFrame := scheduledAnimationFrame t;
       frameCallbacks := frameCallbacks t;
       effects := effects t |}).

(** [this.scheduledAnimationFrame = b] *)
Definition setScheduled (b : bool) : M Tile unit :=
  modify (fun t =>
    {| recorder := recorder t; recordingPhase := recordingPhase t;
       relHeights := relHeights t; seconds := seconds t;
       waveform := waveform t; this_seconds := this_seconds t;
       scheduledAnimationFrame := b;
       frameCallbacks := frameCallbacks t;
       effects := effects t |}).

(** [requestAnimationFrame(callback)]: one more callback for the next frame. *)
Definition requestAnimationFrame : M Tile unit :=
  modify (fun t =>
    {| recorder := recorder t; recordingPhase := recordingPhase t;
       relHeights := relHeights t; seconds := seconds t;
       waveform := waveform t; this_seconds := this_seconds t;
       scheduledAnimationFrame := scheduledAnimationFrame t;
       frameCallbacks := S (frameCallbacks t);
       effects := effects t ++ [RequestAnimationFrame] |}).

(** The browser takes the callbacks of the frame off the list. *)
Definition takeFrameCallbacks : M Tile nat :=
  fun t =>
    (Resolved (frameCallbacks t),
     {| recorder := recorder t; recordingPhase := recordingPhase t;
        relHeights := relHeights t; seconds := seconds t;
        waveform := waveform t; this_seconds := this_seconds t;
        scheduledAnimationFrame := scheduledAnimationFrame t;
        frameCallbacks := 0;
        effects := effects t |}).

(** A call that returns or throws. *)
Definition call {A} (r : Outcome A) : M Tile A := await r.

(** *** Live updates (lines 82-108) *)

(** The callback handed to [requestAnimationFrame]. *)
Definition flush : M Tile unit :=
  w <- gets waveform ;;
  let bars := arrayFastResample w RECORDING_PLAYBACK_SAMPLES in
  s <- gets this_seconds ;;
  setStateLive (map (fun b => percentageOf b (ofZ 0) half) bars) s ;;;
  setScheduled false.

Definition onRecordingUpdate (update : IRecordingUpdate) : M Tile unit :=
  storeUpdate update ;;;
  scheduled <- gets scheduledAnimationFrame ;;
  if scheduled then ret tt
  else
    setScheduled true ;;;
    requestAnimationFrame.

Fixpoint runCallbacks (n : nat) : M Tile unit :=
  match n with
  | O => ret tt
  | S n' => flush ;;; runCallbacks n'
  end.

(** One display refresh: the callbacks registered since the last one run. *)
Definition animationFrame : M Tile unit :=
  n <- takeFrameCallbacks ;;
  runCallbacks n.

Inductive LiveEvent : Type :=
| Update (update : IRecordingUpdate)
| Frame.

Definition live (ev : LiveEvent) : M Tile unit :=
  match ev with
  | Update update => onRecordingUpdate update
  | Frame => animationFrame
  end.

Definition runLive (evs : list LiveEvent) (t : Tile) : Tile :=
  fold_left (fun t ev => exec (live ev) t) evs t.

(** How many [setState] calls of the flush a log holds. *)
Fixpoint viewUpdates (l : list Effect) : nat :=
  match l with
  | [] => 0
  | SetStateLive _ _ :: r => S (viewUpdates r)
  | _ :: r => viewUpdates r
  end.

Fixpoint frames (evs : list LiveEvent) : nat :=
  match evs with
  | [] => 0
  | Frame :: r => S (frames r)
  | Update _ :: r => frames r
  end.

(** *** Send and cancel (lines 111-158) *)

Definition disposeRecording (w : World) : M Tile unit :=
  emit StoreDisposeRecording ;;;
  await (storeDisposeRecording w) ;;;
  setStateRecorder None None.

Definition voiceMessage (r : VoiceRecording) (mxc : JS.DOMString) : VoiceMessage :=
  {| body := "Voice message";
     msgtype := "m.audio";
     url := mxc;
     info_duration := round (times (durationSeconds r) (ofZ 1000));
     info_mimetype := contentType r;
     info_size := contentLength r;
     msc1767_text := "Voice message";
     msc1767_file := {| file_url := mxc;
                        file_name := "Voice message.ogg";
                        file_mimetype := contentType r;
                        file_size := contentLength r |};
     msc1767_audio_duration := round (times (durationSeconds r) (ofZ 1000));
     msc1767_audio_waveform :=
       map (fun v => round (times v (ofZ 1024))) (playbackWaveform r) |}.

Definition send (w : World) (room : Room) : M Tile unit :=
  r <- gets recorder ;;
  match r with
  | None => throw (JsError "No recording started - cannot send anything")
  | Some rec =>
      emit RecorderStop ;;;
      await (stop rec) ;;;
      emit RecorderUpload ;;;
      mxc <- await (upload rec) ;;
      emit (CallSendMessage (roomId room) (voiceMessage rec mxc)) ;;;
      call (sendMessage w) ;;;
      disposeRecording w
  end.

Definition onCancel (w : World) : M Tile unit := disposeRecording w.

Definition componentWillUnmount (w : World) : M Tile unit :=
  emit StoreDisposeRecording ;;;
  await (storeDisposeRecording w).

(** *** Start and stop (lines 160-218) *)

(** [devices?.['audioinput']?.length], as a condition. *)
Definition audioInputLength (devices : option IMediaDevices) : bool :=
  match devices with
  | None => false
  | Some d =>
      match audioinput d with
      | None => false
      | Some l => negb (Nat.eqb (length l) 0)
      end
  end.

(** The listener given to [recorder.on(UPDATE_EVENT, ...)]. *)
Definition onRecorderEvent (ev : RecordingState) : M Tile unit :=
  match ev with
  | EndingSoon => ret tt
  | _ => setStatePhase ev
  end.

Definition onRecordStartEndClick (w : World) : M Tile unit :=
  r <- gets recorder ;;
  match r with
  | Some rec =>
      emit RecorderStop ;;;
      await (stop rec)
  | None =>
      let accessError := emit (CreateTrackedDialog MicrophoneAccessError) in
      (* the first [try]: [false] when it left the handler by [return] *)
      proceed <-
        try_catch
          (emit CallGetDevices ;;;
           devices <- await (getDevices w) ;;
           if negb (audioInputLength devices)
           then emit (CreateTrackedDialog NoMicrophoneError) ;;; ret false
           else ret true)
          (fun e =>
             emit (ConsoleError "Error getting devices: " e) ;;;
             accessError ;;;
             ret false) ;;
      if negb proceed then ret tt
      else
        try_catch
          (emit StoreStartRecording ;;;
           rec <- call (startRecording w) ;;
           emit RecorderStart ;;;
           await (start rec) ;;;
           emit RecorderOn ;;;
           setStateRecorder (Some rec) (Some Started))
          (fun e =>
             emit (ConsoleError "Error starting recording: " e) ;;;
             accessError ;;;
             emit StoreDisposeRecording)
  end.

(** *** Rendering (lines 220-275) *)

Inductive WaveformArea : Type :=
| NoWaveformArea
| RecordingPlayback (r : VoiceRecording)
| LiveRecording (secs : number) (heights : list number).

(** The record/stop button: whether it carries the classes of the composer
    button, whether it carries the class of the stop button, its tooltip. *)
Record RecordButton : Type := {
  isComposerButton : bool;
  isStopButton : bool;
  tooltip : string
}.

Record View : Type := {
  deleteButton : bool;
  waveformArea : WaveformArea;
  recordingInfo : option RecordButton
}.

Definition renderWaveformArea (t : Tile) : WaveformArea :=
  match recorder t with
  | None => NoWaveformArea
  | Some r =>
      match recordingPhase t with
      | Some Started => LiveRecording (seconds t) (relHeights t)
      | _ => RecordingPlayback r
      end
  end.

Definition render (t : Tile) : View :=
  {| deleteButton :=
       match recorder t with
       | None => false
       | Some _ =>
           match recordingPhase t with
           | Some Uploading => false
           | _ => true
           end
       end;
     waveformArea := renderWaveformArea t;
     recordingInfo :=
       let button :=
         match recorder t with
         | None =>
             Some {| isComposerButton := true; isStopButton := false;
                     tooltip := "Record a voice message" |}
         | Some r =>
             if isRecording r
             then Some {| isComposerButton := false; isStopButton := true;
                          tooltip := "Stop the recording" |}
             else None
         end in
       match recordingPhase t with
       | None => button
       | Some Started => button
       | Some _ => None
       end |}.

(** What the tile shows when nothing is recorded. *)
Definition idleView : View :=
  {| deleteButton := false;
     waveformArea := NoWaveformArea;
     recordingInfo :=
       Some {| isComposerButton := true; isStopButton := false;
               tooltip := "Record a voice message" |} |}.

(** *** What runs of the tile are measured with *)

(** The tile after the recorder emitted [evs] to the listener. *)
Definition recorderEvents (evs : list RecordingState) (t : Tile) : Tile :=
  fold_left (fun t ev => exec (onRecorderEvent ev) t) evs t.

(** The last phase among [evs] that is not [EndingSoon], if any, after [acc]. *)
Definition lastShownPhase (evs : list RecordingState)
  (acc : option RecordingState) : option RecordingState :=
  fold_left (fun acc ev => match ev with
                           | EndingSoon => acc
                           | _ => Some ev
                           end) evs acc.

(** The last update among [evs], if any, after [acc]. *)
Definition lastUpdate (evs : list LiveEvent) (acc : option IRecordingUpdate)
  : option IRecordingUpdate :=
  fold_left (fun acc ev => match ev with
                           | Update u => Some u
                           | Frame => acc
                           end) evs acc.

(** The heights the flush computes from an update. *)
Definition bars (u : IRecordingUpdate) : list number :=
  map (fun b => percentageOf b (ofZ 0) half)
      (arrayFastResample (update_waveform u) RECORDING_PLAYBACK_SAMPLES).

(** The tile has taken in the updates up to [last]: its fields hold the
    last update, and unless a flush is waiting, so does its view. *)
Definition caughtUp (last : option IRecordingUpdate) (t : Tile) : Prop :=
  frameCallbacks t = (if scheduledAnimationFrame t then 1 else 0)
  /\ match last with
     | Some u =>
         waveform t = update_waveform u
         /\ this_seconds t = timeSeconds u
         /\ (scheduledAnimationFrame t = false ->
             relHeights t = bars u /\ seconds t = timeSeconds u)
     | None =>
         scheduledAnimationFrame t = false
         /\ relHeights t = relHeights initial
         /\ seconds t = seconds initial
     end.

(** The tile keeps at most the one callback its flag announces. *)
Definition coalesced (t : Tile) : Prop :=
  frameCallbacks t = if scheduledAnimationFrame t then 1 else 0.

(** The whole of what a send may do, in the order it does it. *)
Definition sendSequence (room : Room) (content : VoiceMessage) : list Effect :=
  [RecorderStop; RecorderUpload; CallSendMessage (roomId room) content;
   StoreDisposeRecording; SetStateRecorder None None].

End WithNumbers.

(** Sample values: integers for numbers, a recorder whose upload does [u],
    a tile that holds it, and a world found with the devices [d]. *)
Definition sampleNumbers : Numbers :=
  {| number := Z;
     ofZ := fun z => z;
     half := 1%Z;
     times := Z.mul;
     round := fun z => z;
     arraySeed := fun v n => repeat v n;
     arrayFastResample := fun l n => firstn n l;
     percentageOf := fun v lo hi => v;
     RECORDING_PLAYBACK_SAMPLES := 4 |}.

Definition sampleNumber (z : Z) : @number sampleNumbers := z.

Definition sampleRecorder (u : Outcome JS.DOMString)
  : @VoiceRecording sampleNumbers :=
  {| start := Resolved tt;
     stop := Resolved tt;
     upload := u;
     durationSeconds := sampleNumber 3;
     contentType := "audio/ogg";
     contentLength := sampleNumber 2048;
     playbackWaveform := [sampleNumber 0; sampleNumber 1];
     isRecording := true |}.

Definition sampleWorld (d : Outcome (option IMediaDevices))
  : @World sampleNumbers :=
  {| getDevices := d;
     startRecording := Resolved (sampleRecorder (Resolved (JS.ofAscii "mxc://a/b")));
     storeDisposeRecording := Resolved tt;
     sendMessage := Resolved (Resolved tt) |}.

Definition sampleTile (u : Outcome JS.DOMString) : @Tile sampleNumbers :=
  {| recorder := Some (sampleRecorder u);
     recordingPhase := Some Started;
     relHeights := [];
     seconds := sampleNumber 0;
     waveform := [];
     this_seconds := sampleNumber 0;
     scheduledAnimationFrame := false;
     frameCallbacks := 0;
     effects := [] |}.

Definition sampleRoom : Room := {| roomId := "!room:example.org" |}.

(** A machine with a speaker and no microphone. *)
Definition sampleDevices : IMediaDevices :=
  {| audioinput := Some [];
     audiooutput := Some ["speaker"%string];
     videoinput := None |}.

End Voice.


(* ================================================================== *)
(** * Properties *)

(** ** RecoveryPanel *)

Section RecoveryPanel_properties.
Import Recovery.

Local Ltac run_handler :=
  unfold checkEncryption, accessSecretStorage, onClick, setState, emit,
    bind, await, ret, modify, gets, exec; simpl.

Lemma effects_two {A} (l : list A) (a b : A) : (l ++ [a]) ++ [b] = l ++ [a; b].
Proof. now rewrite <- app_assoc. Qed.

Lemma effects_three {A} (l : list A) (a b c : A) :
  ((l ++ [a]) ++ [b]) ++ [c] = l ++ [a; b; c].
Proof. now rewrite <- !app_assoc. Qed.

(** C1.  With a crypto API whose first probe resolves to [key] and whose
    second probe does [probe2], the check run from any panel [p] ends in
    exactly one state: [missing_backup] when the backup key is [null], and
    then the cross-signing status is not asked for (whatever [probe2] is);
    [secrets_not_cached] when there is a backup key and one of the three
    private keys is not cached locally; [good] when there is a backup key
    and all three are cached. *)
Theorem checkEncryption_resolves :
  forall (key : option (list N)) (probe2 : Outcome CrossSigningStatus) (p : Panel),
    let client := clientWith (Resolved key) probe2 in
    (key = None ->
     checkEncryption client p =
       (Resolved tt,
        {| state := missing_backup;
           effects := effects p ++ [CallGetSessionBackupPrivateKey;
                                    SetState missing_backup] |}))
    /\ (forall status : CrossSigningStatus,
           key <> None ->
           probe2 = Resolved status ->
           masterKey (privateKeysCachedLocally status) = false
           \/ selfSigningKey (privateKeysCachedLocally status) = false
           \/ userSigningKey (privateKeysCachedLocally status) = false ->
           checkEncryption client p =
             (Resolved tt,
              {| state := secrets_not_cached;
                 effects := effects p ++ [CallGetSessionBackupPrivateKey;
                                          CallGetCrossSigningStatus;
                                          SetState secrets_not_cached] |}))
    /\ (forall status : CrossSigningStatus,
           key <> None ->
           probe2 = Resolved status ->
           masterKey (privateKeysCachedLocally status) = true ->
           selfSigningKey (privateKeysCachedLocally status) = true ->
           userSigningKey (privateKeysCachedLocally status) = true ->
           checkEncryption client p =
             (Resolved tt,
              {| state := good;
                 effects := effects p ++ [CallGetSessionBackupPrivateKey;
                                          CallGetCrossSigningStatus;
                                          SetState good] |})).
Proof.
  intros key probe2 p client. subst client. unfold clientWith. repeat split.
  - intros ->. run_handler. now rewrite effects_two.
  - intros status Hkey -> Hmiss.
    destruct key as [k|]; [|congruence].
    run_handler.
    destruct status as [pub sec [m s u]]; simpl in *.
    assert (Hno : m && s && u = false).
    { destruct Hmiss as [->|[->| ->]]; [reflexivity| |];
        [ now rewrite andb_false_r | now rewrite andb_false_r ]. }
    rewrite Hno. simpl. now rewrite effects_three.
  - intros status Hkey -> Hm Hs Hu.
    destruct key as [k|]; [|congruence].
    run_handler.
    destruct status as [pub sec [m s u]]; simpl in *.
    rewrite Hm, Hs, Hu. simpl. now rewrite effects_three.
Qed.

(** The three cases of C1 at a freshly mounted panel. *)
Lemma checkEncryption_resolves_witness :
  state (exec (checkEncryption (clientWith (Resolved None) Pending)) initial)
  = missing_backup
  /\ state (exec (checkEncryption
                    (clientWith (Resolved (Some [1%N]))
                                (Resolved (statusWith true false true))))
                 initial) = secrets_not_cached
  /\ state (exec (checkEncryption
                    (clientWith (Resolved (Some [1%N]))
                                (Resolved (statusWith true true true))))
                 initial) = good.
Proof.
  split; [|split]; unfold exec.
  - destruct (checkEncryption_resolves None Pending initial) as [H _].
    now rewrite (H eq_refl).
  - destruct (checkEncryption_resolves (Some [1%N])
                (Resolved (statusWith true false true)) initial) as [_ [H _]].
    now rewrite (H (statusWith true false true) ltac:(discriminate) eq_refl
                   (or_intror (or_introl eq_refl))).
  - destruct (checkEncryption_resolves (Some [1%N])
                (Resolved (statusWith true true true)) initial) as [_ [_ H]].
    now rewrite (H (statusWith true true true) ltac:(discriminate) eq_refl
                   eq_refl eq_refl eq_refl).
Defined.

(** The panel shows the spinner while the first probe is in flight, and a
    re-check after a successful unlock leaves [secrets_not_cached]. *)
Example loading_while_probe_pending :
  mount (clientWith Pending Pending)
  = {| state := loading; effects := [CallGetSessionBackupPrivateKey] |}.
Proof. reflexivity. Qed.

Example recheck_after_unlock :
  clicks (clientWith (Resolved (Some [])) (Resolved (statusWith true true true)))
         [Resolved tt; Pending]
         (mount (clientWith (Resolved (Some []))
                            (Resolved (statusWith true true false))))
  = {| state := good;
       effects := [CallGetSessionBackupPrivateKey; CallGetCrossSigningStatus;
                   SetState secrets_not_cached; CallAccessSecretStorage;
                   CallGetSessionBackupPrivateKey; CallGetCrossSigningStatus;
                   SetState good; OnChangingRecoveryKeyClick] |}.
Proof. reflexivity. Qed.

Lemma clicks_loading :
  forall (client : MatrixClient) (unlocks : list (Outcome unit)) (l : list Effect),
    clicks client unlocks {| state := loading; effects := l |}
    = {| state := loading; effects := l |}.
Proof.
  intros client unlocks l. induction unlocks as [|u us IH]; simpl; [reflexivity|].
  exact IH.
Qed.

(** C5.  Without a crypto API the check does nothing at all: it calls no
    collaborator and sets no state, from whatever panel it is run.  So the
    panel mounted with such a client is [loading], with no effect performed,
    and stays so through every later click: it renders a spinner, which
    offers nothing that would run the check again. *)
Theorem checkEncryption_without_crypto :
  forall (p : Panel) (unlocks : list (Outcome unit)),
    let client := {| getCrypto := None |} in
    checkEncryption client p = (Resolved tt, p)
    /\ mount client = {| state := loading; effects := [] |}
    /\ clicks client unlocks (mount client) = {| state := loading; effects := [] |}.
Proof.
  intros p unlocks client. subst client. repeat split.
  unfold mount, exec, checkEncryption, ret, initial. simpl.
  apply clicks_loading.
Qed.

End RecoveryPanel_properties.


(** ** Handlers that stay within a relation *)

Section Frame.
Variable S : Type.
Variable R : S -> S -> Prop.
Hypothesis R_refl : forall s, R s s.
Hypothesis R_trans : forall s1 s2 s3, R s1 s2 -> R s2 s3 -> R s1 s3.

Lemma within_ret {A} (a : A) : within R (ret a).
Proof. intros s. apply R_refl. Qed.

Lemma within_await {A} (p : Outcome A) : within R (await p).
Proof. intros s. apply R_refl. Qed.

Lemma within_throw {A} (e : Exn) : within R (@throw S A e).
Proof. intros s. apply R_refl. Qed.

Lemma within_gets {A} (f : S -> A) : within R (gets f).
Proof. intros s. apply R_refl. Qed.

Lemma within_modify (f : S -> S) : (forall s, R s (f s)) -> within R (modify f).
Proof. intros Hf s. apply Hf. Qed.

Lemma within_bind {A B} (m : M S A) (k : A -> M S B) :
  within R m -> (forall a, within R (k a)) -> within R (bind m k).
Proof.
  intros Hm Hk s. unfold bind. specialize (Hm s).
  destruct (m s) as [[a|e|] s']; simpl in *; auto.
  eapply R_trans; [exact Hm|]. apply Hk.
Qed.

Lemma within_try_catch {A} (m : M S A) (h : Exn -> M S A) :
  within R m -> (forall e, within R (h e)) -> within R (try_catch m h).
Proof.
  intros Hm Hh s. unfold try_catch. specialize (Hm s).
  destruct (m s) as [[a|e|] s']; simpl in *; auto.
  eapply R_trans; [exact Hm|]. apply Hh.
Qed.

Lemma within_also {A B} (m : M S A) (k : M S B) :
  within R m -> within R k -> within R (also m k).
Proof.
  intros Hm Hk s. unfold also. eapply R_trans; [apply Hm|apply Hk].
Qed.

Lemma within_try_finally {A} (m : M S A) (f : M S unit) :
  within R m -> within R f -> within R (try_finally m f).
Proof.
  intros Hm Hf s. unfold try_finally. specialize (Hm s).
  destruct (m s) as [[a|e|] s']; simpl in *; auto;
    specialize (Hf s'); destruct (f s') as [[[]|e'|] s'']; simpl in *;
    eapply R_trans; eauto.
Qed.

End Frame.


(** ** ChangeRecoveryKey *)

Section ChangeRecoveryKey_properties.
Import ChangeKey.

Lemma strictEquals_spec :
  forall a b : JS.DOMString, JS.strictEquals a b = true <-> a = b.
Proof.
  induction a as [|x a IH]; destruct b as [|y b]; simpl;
    try (split; [discriminate|discriminate]); [tauto|].
  rewrite andb_true_iff, N.eqb_eq, IH. split.
  - intros [-> ->]. reflexivity.
  - intros H. injection H as -> ->. auto.
Qed.

Example trim_both_ends :
  JS.trim [160; 9; 65; 32; 66; 10; 8233; 65279]%N = [65; 32; 66]%N.
Proof. reflexivity. Qed.

(** The setup flow from the activation to the commit.  A submit does
    nothing on the key screen, which has no form; on the confirm screen it
    commits, before the key is entered as well as after; and without a
    crypto API it only calls the finish callback. *)
Example setup_flow_run :
  let c := sampleClient (Resolved tt) in
  let i := run (sampleProps true)
               [(c, ClickContinue); (c, Submit); (c, ClickContinue); (c, Submit);
                (c, ChangeInput (JS.ofAscii " EsTc 5rr1  ")); (c, Submit);
                ({| getCrypto := None |}, Submit)]
               (mount (sampleProps true) c) in
  state i = confirm
  /\ effects i
     = [CallCreateRecoveryKeyFromPassphrase; SetState save_key_setup_flow;
        SetState confirm;
        EnableSecretStorageKeyCache;
        CallBootstrapSecretStorage (bootstrapOpts (sampleProps true) sampleKey);
        DisableSecretStorageKeyCache; CallOnFinish;
        SetIsKeyValid true;
        EnableSecretStorageKeyCache;
        CallBootstrapSecretStorage (bootstrapOpts (sampleProps true) sampleKey);
        DisableSecretStorageKeyCache; CallOnFinish;
        CallOnFinish].
Proof. split; reflexivity. Qed.

Lemma typed_last :
  forall (recoveryKey : JS.DOMString) (earlier : list JS.DOMString)
         (filledKey : JS.DOMString) (i : Instance),
    isKeyValid (typed recoveryKey (earlier ++ [filledKey]) i)
    = Some (JS.strictEquals (JS.trim filledKey) recoveryKey).
Proof.
  intros recoveryKey earlier filledKey i. unfold typed.
  rewrite fold_left_app. reflexivity.
Qed.

(** C2.  The submit control of the confirm form is disabled before anything
    is entered; and whatever was entered before, once the field holds
    [filledKey] the control is disabled when the trimmed input differs from
    the generated recovery key, and enabled exactly when the trimmed input
    is the generated recovery key. *)
Theorem submit_enabled_iff_key_matches :
  forall (recoveryKey : JS.DOMString) (i : Instance)
         (earlier : list JS.DOMString) (filledKey : JS.DOMString),
    let form := typed recoveryKey (earlier ++ [filledKey]) i in
    (forall props, submitDisabled (initial props) = true)
    /\ (JS.trim filledKey <> recoveryKey <-> submitDisabled form = true)
    /\ (JS.trim filledKey = recoveryKey <-> submitDisabled form = false).
Proof.
  intros recoveryKey i earlier filledKey form. subst form.
  unfold submitDisabled. rewrite typed_last.
  pose proof (strictEquals_spec (JS.trim filledKey) recoveryKey) as Hspec.
  destruct (JS.strictEquals (JS.trim filledKey) recoveryKey); simpl.
  - assert (Heq : JS.trim filledKey = recoveryKey) by now apply Hspec.
    split; [reflexivity|]. split; split; intros H; try discriminate; auto.
  - assert (Hne : JS.trim filledKey <> recoveryKey).
    { intros Heq. apply Hspec in Heq. discriminate. }
    split; [reflexivity|]. split; split; intros H; try discriminate; auto.
    now elim Hne.
Qed.

Local Ltac run_submit :=
  unfold onSubmit, withSecretStorageKeyCache, callOnFinish, callOnCancelClick,
    try_catch, try_finally, emit, bind, await, ret, modify, gets, exec;
  simpl.

(** C4.  Submitting while the crypto API is there: when the scoped bootstrap
    call rejects with [e], the handler logs the error and is done; the finish
    callback is not called, the bootstrap is asked for once and not again,
    and the wizard is in the state it was in.  When the call resolves, the
    finish callback is called next. *)
Theorem onSubmit_bootstrap_outcome :
  forall (props : ChangeRecoveryKeyProps) (crypto : CryptoApi)
         (key : GeneratedSecretStorageKey) (i : Instance),
    let client := {| getCrypto := Some crypto |} in
    let opts := bootstrapOpts props key in
    let i' := exec (onSubmit props client key) i in
    (forall e : Exn,
        bootstrapSecretStorage crypto opts = Rejected e ->
        let done := [EnableSecretStorageKeyCache;
                     CallBootstrapSecretStorage opts;
                     DisableSecretStorageKeyCache;
                     LoggerError "Failed to bootstrap secret storage" e] in
        onSubmit props client key i = (Resolved tt, i')
        /\ effects i' = effects i ++ done
        /\ (In CallOnFinish (effects i') -> In CallOnFinish (effects i)))
    /\ (bootstrapSecretStorage crypto opts = Resolved tt ->
        exists rest : list Effect,
          effects i' = effects i ++ [EnableSecretStorageKeyCache;
                                     CallBootstrapSecretStorage opts;
                                     DisableSecretStorageKeyCache;
                                     CallOnFinish] ++ rest
          /\ (onFinish props = Resolved tt -> rest = []))
    /\ state i' = state i
    /\ recoveryKey i' = recoveryKey i
    /\ isKeyValid i' = isKeyValid i.
Proof.
  intros props crypto key i client opts i'. subst client opts i'.
  split; [|split].
  - intros e He done. subst done. run_submit. rewrite He. simpl.
    repeat split.
    + now rewrite <- !app_assoc.
    + rewrite <- !app_assoc. simpl. intros Hin.
      apply in_app_or in Hin as [Hin|[H|[H|[H|[H|[]]]]]];
        auto; discriminate.
  - intros Hok. run_submit. rewrite Hok. simpl.
    destruct (onFinish props) as [[]|e|]; simpl.
    + exists []. split; [now rewrite <- !app_assoc|reflexivity].
    + exists [LoggerError "Failed to bootstrap secret storage" e].
      split; [now rewrite <- !app_assoc|discriminate].
    + exists []. split; [now rewrite <- !app_assoc|discriminate].
  - run_submit.
    destruct (bootstrapSecretStorage crypto (bootstrapOpts props key)) as [[]|e|];
      simpl; [destruct (onFinish props) as [[]|e|]; simpl|..]; auto.
Qed.

(** C4 at the sample wizard: a bootstrap that rejects leaves the log
    without a call of the finish callback, one that resolves puts it there. *)
Lemma onSubmit_bootstrap_outcome_witness :
  (In CallOnFinish
       (effects (exec (onSubmit (sampleProps true)
                                (sampleClient (Rejected (Thrown 1))) sampleKey)
                      (initial (sampleProps true))))
   -> False)
  /\ In CallOnFinish
       (effects (exec (onSubmit (sampleProps true)
                                (sampleClient (Resolved tt)) sampleKey)
                      (initial (sampleProps true)))).
Proof.
  split.
  - destruct (onSubmit_bootstrap_outcome (sampleProps true)
                {| createRecoveryKeyFromPassphrase := Resolved sampleKey;
                   bootstrapSecretStorage := fun _ => Rejected (Thrown 1) |}
                sampleKey (initial (sampleProps true))) as [H _].
    destruct (H (Thrown 1) eq_refl) as [_ [_ Hno]].
    intros Hin. exact (Hno Hin).
  - destruct (onSubmit_bootstrap_outcome (sampleProps true)
                {| createRecoveryKeyFromPassphrase := Resolved sampleKey;
                   bootstrapSecretStorage := fun _ => Resolved tt |}
                sampleKey (initial (sampleProps true))) as [_ [H _]].
    destruct (H eq_refl) as [rest [Heff _]].
    unfold sampleClient. rewrite Heff. simpl. auto 6.
Defined.

(** C10.  Submitting while the client has no crypto API: the handler calls
    the finish callback at once and does nothing else; in particular the
    secret storage is not bootstrapped and the key cache is not touched. *)
Theorem onSubmit_without_crypto :
  forall (props : ChangeRecoveryKeyProps) (key : GeneratedSecretStorageKey)
         (i : Instance),
    let i' := exec (onSubmit props {| getCrypto := None |} key) i in
    effects i' = effects i ++ [CallOnFinish]
    /\ fst (onSubmit props {| getCrypto := None |} key i) = onFinish props
    /\ (forall opts,
           In (CallBootstrapSecretStorage opts) (effects i') ->
           In (CallBootstrapSecretStorage opts) (effects i))
    /\ state i' = state i
    /\ recoveryKey i' = recoveryKey i
    /\ isKeyValid i' = isKeyValid i.
Proof.
  intros props key i i'. subst i'. run_submit.
  destruct (onFinish props) as [[]|e|]; simpl; repeat split; auto;
    intros opts Hin; apply in_app_or in Hin as [Hin|[Hin|[]]];
    auto; discriminate.
Qed.

(** *** The wizard machine keeps its key *)

Lemma generations_app :
  forall l l' : list Effect,
    generations (l ++ l') = generations l + generations l'.
Proof.
  intros l l'. unfold generations. now rewrite filter_app, length_app.
Qed.

Lemma keeps_refl : forall v i, keeps v i i.
Proof. intros v i. unfold keeps. auto. Qed.

Lemma keeps_trans :
  forall v i1 i2 i3, keeps v i1 i2 -> keeps v i2 i3 -> keeps v i1 i3.
Proof.
  intros v i1 i2 i3 (Hk1 & Hg1 & Hb1 & Hs1) (Hk2 & Hg2 & Hb2 & Hs2).
  unfold keeps. repeat split.
  - congruence.
  - congruence.
  - intros opts Hin. destruct (Hb2 opts Hin) as [Hin2|Hv]; auto.
  - destruct Hs2 as [Hs2|Hs2]; [|now right].
    destruct Hs1 as [Hs1|Hs1]; [left|right]; congruence.
Qed.

Local Abbreviation stays v := (within (keeps v)).

Lemma emit_stays : forall v e, allowed v e -> stays v (emit e).
Proof.
  intros v e Hal i. unfold emit, modify, keeps. simpl.
  repeat split; auto.
  - rewrite generations_app.
    destruct e; try contradiction; unfold generations; simpl; lia.
  - intros opts Hin. apply in_app_or in Hin as [Hin|[Heq|[]]]; auto.
    subst e. right. exact Hal.
Qed.

Lemma setState_stays :
  forall v s, s <> inform_user -> stays v (setState s).
Proof.
  intros v s Hs i. unfold setState, modify, keeps. simpl.
  repeat split; auto.
  - rewrite generations_app. unfold generations. simpl. lia.
  - intros opts Hin. apply in_app_or in Hin as [Hin|[Heq|[]]]; auto.
    discriminate.
Qed.

Lemma setIsKeyValid_stays : forall v b, stays v (setIsKeyValid b).
Proof.
  intros v b i. unfold setIsKeyValid, modify, keeps. simpl.
  repeat split; auto.
  - rewrite generations_app. unfold generations. simpl. lia.
  - intros opts Hin. apply in_app_or in Hin as [Hin|[Heq|[]]]; auto.
    discriminate.
Qed.

Local Ltac stays_step v :=
  first
    [ apply within_ret; apply keeps_refl
    | apply within_await; apply keeps_refl
    | apply within_gets; apply keeps_refl
    | apply (within_bind (@keeps_trans v)); [|intros ?]
    | apply (within_try_catch (@keeps_trans v)); [|intros ?]
    | apply (within_try_finally (@keeps_trans v))
    | apply (within_also (@keeps_trans v))
    | apply emit_stays; first [exact I | reflexivity]
    | apply setIsKeyValid_stays
    | apply setState_stays; discriminate ].

Lemma callOnFinish_stays : forall v props, stays v (callOnFinish props).
Proof. intros v props. unfold callOnFinish. repeat stays_step v. Qed.

Lemma callOnCancelClick_stays : forall v props, stays v (callOnCancelClick props).
Proof. intros v props. unfold callOnCancelClick. repeat stays_step v. Qed.

Lemma onSubmit_stays :
  forall props client key, stays (Some key) (onSubmit props client key).
Proof.
  intros props client key. unfold onSubmit.
  destruct (getCrypto client) as [crypto|]; [|apply callOnFinish_stays].
  unfold withSecretStorageKeyCache.
  repeat first [ apply callOnFinish_stays | stays_step (Some key) ].
Qed.

Lemma dispatch_stays :
  forall props client v st content ev,
    render props client v st = Some content ->
    stays v (dispatch content ev).
Proof.
  intros props client v st content ev Hr. unfold render in Hr.
  destruct v as [key|]; [|discriminate].
  destruct (encodedPrivateKey key) as [encoded|]; [|discriminate].
  destruct (negb (JS.truthy encoded)); [discriminate|].
  injection Hr as <-.
  destruct st, ev; simpl; unfold KeyForm_onChange;
    repeat first [ apply callOnCancelClick_stays
                 | apply onSubmit_stays
                 | stays_step (Some key)
                 | match goal with |- stays _ (if ?b then _ else _) => destruct b end ].
Qed.

(** On a mounted wizard a render runs no hook again. *)
Lemma render_mounted :
  forall props client i v,
    recoveryKey i = Some ([], v) ->
    ChangeRecoveryKey props client i
    = (Resolved (render props client v (state i)), i).
Proof.
  intros props client i v Hm.
  unfold ChangeRecoveryKey, useAsyncMemo, bind, gets, ret. simpl.
  rewrite Hm. reflexivity.
Qed.

Lemma mount_spec :
  forall props client,
    let i0 := mount props client in
    recoveryKey i0 = Some ([], settled client)
    /\ state i0 = state (initial props)
    /\ effects i0 = match getCrypto client with
                    | Some _ => [CallCreateRecoveryKeyFromPassphrase]
                    | None => []
                    end.
Proof.
  intros props client.
  unfold mount, exec, ChangeRecoveryKey, useAsyncMemo, createRecoveryKey,
    settled, storeMemo, emit, bind, gets, ret, await, modify.
  simpl.
  destruct (getCrypto client) as [crypto|]; simpl; [|auto].
  destruct (createRecoveryKeyFromPassphrase crypto) as [k|e|]; simpl; auto.
Qed.

Lemma step_keeps :
  forall props cev i v,
    recoveryKey i = Some ([], v) -> keeps v i (step props cev i).
Proof.
  intros props [client ev] i v Hm. unfold step. simpl.
  rewrite (render_mounted props client i Hm).
  destruct (render props client v (state i)) as [content|] eqn:Hr.
  - unfold exec. exact (@dispatch_stays props client v (state i) content ev Hr i).
  - apply keeps_refl.
Qed.

Lemma run_keeps :
  forall props evs i v,
    recoveryKey i = Some ([], v) -> keeps v i (run props evs i).
Proof.
  intros props evs. induction evs as [|cev evs IH]; intros i v Hm; simpl.
  - apply keeps_refl.
  - pose proof (step_keeps props cev i Hm) as Hstep.
    eapply keeps_trans; [exact Hstep|].
    apply IH. destruct Hstep as [Hk _]. now rewrite Hk.
Qed.

(** C3.  The wizard is activated in [inform_user] when it sets recovery up
    and in [save_key_change_flow] when it changes the key; and in the change
    flow the introductory screen is skipped for good: no sequence of user
    events brings the wizard to [inform_user]. *)
Theorem initial_state_by_flow :
  forall (finish cancel : Outcome unit) (client : MatrixClient)
         (evs : list (MatrixClient * UserEvent)),
    let setup := {| isSetupFlow := true; onFinish := finish;
                    onCancelClick := cancel |} in
    let change := {| isSetupFlow := false; onFinish := finish;
                     onCancelClick := cancel |} in
    state (initial setup) = inform_user
    /\ state (mount setup client) = inform_user
    /\ state (initial change) = save_key_change_flow
    /\ state (mount change client) = save_key_change_flow
    /\ state (run change evs (mount change client)) <> inform_user.
Proof.
  intros finish cancel client evs setup change.
  destruct (mount_spec setup client) as (_ & Hs & _).
  destruct (mount_spec change client) as (Hm & Hc & _).
  repeat split; try assumption.
  destruct (run_keeps change evs _ Hm) as (_ & _ & _ & [Hst|Hst]); [|exact Hst].
  rewrite Hst, Hc. discriminate.
Qed.

(** C9.  Through any sequence of user events after the activation, the memo
    holds what it held at the activation, namely what the one call of
    [createRecoveryKeyFromPassphrase] resolved to: the log asks the crypto
    API for a key exactly once when the client has one (and never when it
    has none), every panel rendered shows or compares against the encoding
    of that key, and every bootstrap commits that key. *)
Theorem recovery_key_generated_once :
  forall (props : ChangeRecoveryKeyProps) (client : MatrixClient)
         (evs : list (MatrixClient * UserEvent)),
    let i0 := mount props client in
    let i := run props evs i0 in
    generations (effects i) = match getCrypto client with
                              | Some _ => 1
                              | None => 0
                              end
    /\ recoveryKey i = recoveryKey i0
    /\ generatedKey i = settled client
    /\ (forall later content k,
           fst (ChangeRecoveryKey props later i) = Resolved (Some content) ->
           contentKey content = Some k ->
           exists key, settled client = Some key /\ encodedPrivateKey key = Some k)
    /\ (forall opts,
           In (CallBootstrapSecretStorage opts) (effects i) ->
           settled client = Some (createSecretStorageKey opts)).
Proof.
  intros props client evs i0 i.
  destruct (mount_spec props client) as (Hm & _ & He). fold i0 in Hm, He.
  destruct (run_keeps props evs i0 Hm) as (Hk & Hg & Hb & _). fold i in Hk, Hg, Hb.
  assert (Hmi : recoveryKey i = Some ([], settled client)) by congruence.
  repeat split.
  - rewrite Hg, He. now destruct (getCrypto client).
  - exact Hk.
  - unfold generatedKey. now rewrite Hmi.
  - intros later content k Hr Hck.
    rewrite (render_mounted props later i Hmi) in Hr. simpl in Hr.
    injection Hr as Hr. unfold render in Hr.
    destruct (settled client) as [key|]; [|discriminate].
    destruct (encodedPrivateKey key) as [encoded|] eqn:Henc; [|discriminate].
    destruct (negb (JS.truthy encoded)); [discriminate|].
    injection Hr as <-. exists key. split; [reflexivity|].
    destruct (state i); simpl in Hck; congruence.
  - intros opts Hin. destruct (Hb opts Hin) as [Hin0|Hv]; [|exact Hv].
    rewrite He in Hin0. destruct (getCrypto client); simpl in Hin0.
    + destruct Hin0 as [Hin0|[]]. discriminate.
    + destruct Hin0.
Qed.

End ChangeRecoveryKey_properties.


(** ** VoiceRecordComposerTile *)

Section VoiceRecordComposerTile_properties.
Import Voice.
Context `{Numbers}.

Local Ltac run_tile :=
  unfold onRecordStartEndClick, send, disposeRecording, setStateRecorder,
    call, emit, try_catch, bind, await, ret, throw, modify, gets, exec;
  simpl.

Lemma audioInputLength_false :
  forall devices : option IMediaDevices,
    audioInputLength devices = false
    <-> devices = None
        \/ exists d, devices = Some d
                     /\ (audioinput d = None \/ audioinput d = Some []).
Proof.
  intros [d|]; simpl.
  - destruct (audioinput d) as [[|x l]|] eqn:Ha; simpl; split; intros Hx.
    + right. exists d. auto.
    + reflexivity.
    + discriminate.
    + destruct Hx as [Hx|[d' [Hd [Hx|Hx]]]]; try discriminate;
        injection Hd as <-; congruence.
    + right. exists d. auto.
    + reflexivity.
  - split; auto.
Qed.

(** C6.  A click that would start a recording (the tile holds no recorder):
    when the device enumeration resolves with no audio input (no device
    object, no [audioinput] list, or an empty one), the "no microphone"
    dialog is shown; when it rejects with [e], the error is written to the
    console and the "microphone access" dialog is shown.  In both cases the
    handler returns there: nothing else happens, the tile still holds no
    recorder, and the store is not asked for a recording. *)
Theorem start_without_microphone :
  forall (w : World) (t : Tile),
    recorder t = None ->
    let t' := exec (onRecordStartEndClick w) t in
    (forall devices,
        getDevices w = Resolved devices ->
        devices = None
        \/ (exists d, devices = Some d
                      /\ (audioinput d = None \/ audioinput d = Some [])) ->
        onRecordStartEndClick w t = (Resolved tt, t')
        /\ effects t' = effects t ++ [CallGetDevices;
                                      CreateTrackedDialog NoMicrophoneError]
        /\ recorder t' = None
        /\ (In StoreStartRecording (effects t') ->
            In StoreStartRecording (effects t)))
    /\ (forall e,
           getDevices w = Rejected e ->
           onRecordStartEndClick w t = (Resolved tt, t')
           /\ effects t' = effects t ++ [CallGetDevices;
                                         ConsoleError "Error getting devices: " e;
                                         CreateTrackedDialog MicrophoneAccessError]
           /\ recorder t' = None
           /\ (In StoreStartRecording (effects t') ->
               In StoreStartRecording (effects t))).
Proof.
  intros w t Hrec t'. subst t'. split.
  - intros devices Hd Hnone. apply audioInputLength_false in Hnone.
    run_tile. rewrite Hrec, Hd. simpl. rewrite Hnone. simpl.
    rewrite <- !app_assoc. simpl. repeat split; auto.
    intros Hin. apply in_app_or in Hin as [Hin|[Hx|[Hx|[]]]];
      auto; discriminate.
  - intros e He. run_tile. rewrite Hrec, He. simpl.
    rewrite <- !app_assoc. simpl. repeat split; auto.
    intros Hin. apply in_app_or in Hin as [Hin|[Hx|[Hx|[Hx|[]]]]];
      auto; discriminate.
Qed.

(** C7, as the code has it.  What a send with an active recorder adds to
    the log is an initial part of: stop the recorder, upload, send the
    message, dispose of the recording in the store, reset the tile; and each
    of them is started exactly when the one before it has completed.  The
    stop is always there; the upload is there exactly when the stop
    resolved; the message is sent exactly when the upload resolved too, and
    then carries what the upload resolved to; the store is asked to dispose
    of the recording exactly when the call that sends the message returned
    too; the tile is reset exactly when the store resolved too.  So when the
    stop and the upload resolve and the call that sends the message returns,
    the recording is disposed of after it, whatever becomes of the promise
    of the send. *)
Theorem send_order :
  forall (w : World) (room : Room) (t : Tile) (rec : VoiceRecording),
    recorder t = Some rec ->
    let t' := exec (send w room) t in
    (exists (n : nat) (content : VoiceMessage),
        1 <= n <= 5
        /\ effects t' = effects t ++ firstn n (sendSequence room content)
        /\ (2 <= n <-> stop rec = Resolved tt)
        /\ (3 <= n <->
            stop rec = Resolved tt
            /\ exists mxc, upload rec = Resolved mxc
                           /\ content = voiceMessage rec mxc)
        /\ (4 <= n <->
            stop rec = Resolved tt
            /\ (exists mxc, upload rec = Resolved mxc)
            /\ exists sent, sendMessage w = Resolved sent)
        /\ (5 <= n <->
            stop rec = Resolved tt
            /\ (exists mxc, upload rec = Resolved mxc)
            /\ (exists sent, sendMessage w = Resolved sent)
            /\ storeDisposeRecording w = Resolved tt))
    /\ (forall (mxc : JS.DOMString) (sent : Outcome unit),
           stop rec = Resolved tt ->
           upload rec = Resolved mxc ->
           sendMessage w = Resolved sent ->
           exists rest,
             effects t' = effects t ++ [RecorderStop; RecorderUpload;
                                        CallSendMessage (roomId room)
                                                        (voiceMessage rec mxc);
                                        StoreDisposeRecording] ++ rest).
Proof.
  intros w room t rec Hrec t'. subst t'. split.
  - run_tile. rewrite Hrec. simpl.
    destruct (stop rec) as [[]|e|]; simpl;
      [|exists 1, (voiceMessage rec []);
        (split; [lia|]); (split; [reflexivity|]);
        repeat split; intros; try lia; try discriminate;
        repeat match goal with
               | H : _ /\ _ |- _ => destruct H
               | H : exists _, _ |- _ => destruct H
               end; discriminate..].
    destruct (upload rec) as [mxc|e|]; simpl;
      [|exists 2, (voiceMessage rec []);
        (split; [lia|]); (split; [now rewrite <- !app_assoc|]);
        repeat split; intros; try lia; try discriminate;
        repeat match goal with
               | H : _ /\ _ |- _ => destruct H
               | H : exists _, _ |- _ => destruct H
               end; discriminate..].
    destruct (sendMessage w) as [sent|e|]; simpl;
      [|exists 3, (voiceMessage rec mxc);
        (split; [lia|]); (split; [now rewrite <- !app_assoc|]);
        repeat split; intros; try lia; try discriminate; eauto;
        repeat match goal with
               | H : _ /\ _ |- _ => destruct H
               | H : exists _, _ |- _ => destruct H
               end; discriminate..].
    destruct (storeDisposeRecording w) as [[]|e|]; simpl;
      [exists 5, (voiceMessage rec mxc)|exists 4, (voiceMessage rec mxc)..];
      (split; [lia|]); (split; [now rewrite <- !app_assoc|]);
      repeat split; intros; try lia; try discriminate; eauto;
      repeat match goal with
             | H : _ /\ _ |- _ => destruct H
             | H : exists _, _ |- _ => destruct H
             end; discriminate.
  - intros mxc sent Hstop Hup Hsend. run_tile.
    rewrite Hrec. simpl. rewrite Hstop. simpl. rewrite Hup. simpl.
    rewrite Hsend. simpl.
    destruct (storeDisposeRecording w) as [[]|e|]; simpl;
      [exists [SetStateRecorder None None]|exists []..];
      now rewrite <- !app_assoc.
Qed.

(** *** Coalescing of live updates *)

Lemma viewUpdates_app :
  forall l l' : list Effect,
    viewUpdates (l ++ l') = viewUpdates l + viewUpdates l'.
Proof.
  induction l as [|e l IH]; intros l'; simpl; [reflexivity|].
  destruct e; simpl; rewrite IH; reflexivity.
Qed.

Local Ltac run_live :=
  unfold live, animationFrame, onRecordingUpdate, flush, takeFrameCallbacks,
    requestAnimationFrame, storeUpdate, setScheduled, setStateLive,
    bind, ret, modify, gets, exec, coalesced in *;
  simpl in *.

Lemma live_coalesced :
  forall (ev : LiveEvent) (t : Tile),
    coalesced t -> coalesced (exec (live ev) t).
Proof.
  intros [u|] t Hc.
  - run_live. destruct (scheduledAnimationFrame t); simpl; [exact Hc|].
    now rewrite Hc.
  - run_live. destruct (scheduledAnimationFrame t); rewrite Hc; reflexivity.
Qed.

Lemma runLive_coalesced :
  forall (evs : list LiveEvent) (t : Tile),
    coalesced t -> coalesced (runLive evs t).
Proof.
  induction evs as [|ev evs IH]; intros t Hc; simpl; [exact Hc|].
  apply IH. now apply live_coalesced.
Qed.

(** An update changes nothing in the view. *)
Lemma update_viewUpdates :
  forall (u : IRecordingUpdate) (t : Tile),
    viewUpdates (effects (exec (onRecordingUpdate u) t)) = viewUpdates (effects t)
    /\ relHeights (exec (onRecordingUpdate u) t) = relHeights t
    /\ seconds (exec (onRecordingUpdate u) t) = seconds t.
Proof.
  intros u t. run_live.
  destruct (scheduledAnimationFrame t); simpl; [auto|].
  rewrite viewUpdates_app. simpl. auto.
Qed.

(** A frame updates the view once for each callback it finds. *)
Lemma frame_viewUpdates :
  forall t : Tile,
    coalesced t ->
    viewUpdates (effects (exec animationFrame t))
    = viewUpdates (effects t) + frameCallbacks t.
Proof.
  intros t Hc. run_live.
  destruct (scheduledAnimationFrame t); rewrite Hc; simpl.
  - rewrite viewUpdates_app. reflexivity.
  - lia.
Qed.

Lemma viewUpdates_le_frames :
  forall (evs : list LiveEvent) (t : Tile),
    coalesced t ->
    viewUpdates (effects (runLive evs t)) <= viewUpdates (effects t) + frames evs.
Proof.
  induction evs as [|ev evs IH]; intros t Hc; [simpl; lia|].
  change (runLive (ev :: evs) t) with (runLive evs (exec (live ev) t)).
  pose proof (IH _ (live_coalesced ev Hc)) as Hle.
  assert (Hstep : viewUpdates (effects (exec (live ev) t)) + frames evs
                  <= viewUpdates (effects t) + frames (ev :: evs)).
  { destruct ev as [u|]; simpl frames.
    - change (live (Update u)) with (onRecordingUpdate u).
      destruct (update_viewUpdates u t) as [-> _]. lia.
    - change (live Frame) with animationFrame.
      rewrite (frame_viewUpdates Hc).
      unfold coalesced in Hc. destruct (scheduledAnimationFrame t); lia. }
  lia.
Qed.

(** After a burst of updates one callback waits, and the fields hold the
    last update. *)
Lemma burst_pending :
  forall (us : list IRecordingUpdate) (u : IRecordingUpdate) (t : Tile),
    coalesced t ->
    let t1 := runLive (map Update (us ++ [u])) t in
    scheduledAnimationFrame t1 = true
    /\ frameCallbacks t1 = 1
    /\ waveform t1 = update_waveform u
    /\ this_seconds t1 = timeSeconds u
    /\ viewUpdates (effects t1) = viewUpdates (effects t).
Proof.
  induction us as [|u0 us IH]; intros u t Hc t1; subst t1.
  - simpl. run_live.
    destruct (scheduledAnimationFrame t) eqn:Hs; simpl; repeat split; auto.
    rewrite viewUpdates_app. simpl. lia.
  - change (runLive (map Update ((u0 :: us) ++ [u])) t)
      with (runLive (map Update (us ++ [u])) (exec (live (Update u0)) t)).
    destruct (IH u _ (live_coalesced (Update u0) Hc)) as (H1 & H2 & H3 & H4 & H5).
    repeat split; auto.
    rewrite H5. apply (update_viewUpdates u0 t).
Qed.

(** C8.  From any tile reached by updates and frames, a burst of updates
    [us ++ [u]] leaves exactly one callback waiting for the next frame,
    however many updates there were, and changes nothing in the view; the
    frame then performs exactly one view-state update, from the waveform and
    the time of the last update [u], and lowers the flag.  Over the whole
    history there are at most as many view-state updates as frames. *)
Theorem updates_coalesced_per_frame :
  forall (evs : list LiveEvent) (us : list IRecordingUpdate)
         (u : IRecordingUpdate),
    let t0 := runLive evs initial in
    let t1 := runLive (map Update (us ++ [u])) t0 in
    let t2 := exec animationFrame t1 in
    viewUpdates (effects t0) <= frames evs
    /\ scheduledAnimationFrame t1 = true
    /\ frameCallbacks t1 = 1
    /\ viewUpdates (effects t1) = viewUpdates (effects t0)
    /\ viewUpdates (effects t2) = S (viewUpdates (effects t0))
    /\ relHeights t2
       = map (fun b => percentageOf b (ofZ 0) half)
             (arrayFastResample (update_waveform u) RECORDING_PLAYBACK_SAMPLES)
    /\ seconds t2 = timeSeconds u
    /\ scheduledAnimationFrame t2 = false
    /\ frameCallbacks t2 = 0.
Proof.
  intros evs us u t0 t1 t2.
  assert (Hc0 : coalesced t0) by (apply runLive_coalesced; reflexivity).
  destruct (burst_pending us u Hc0) as (Hs & Hf & Hw & Hsec & Hv).
  fold t1 in Hs, Hf, Hw, Hsec, Hv.
  assert (Hc1 : coalesced t1) by (unfold coalesced; now rewrite Hs, Hf).
  split; [|repeat split; auto].
  - pose proof (viewUpdates_le_frames evs (t := initial) eq_refl) as Hle.
    exact Hle.
  - subst t2. rewrite (frame_viewUpdates Hc1), Hf, Hv. lia.
  - subst t2. run_live. rewrite Hf. simpl. now rewrite Hw.
  - subst t2. run_live. rewrite Hf. simpl. exact Hsec.
  - subst t2. run_live. rewrite Hf. reflexivity.
  - subst t2. run_live. rewrite Hf. reflexivity.
Qed.

End VoiceRecordComposerTile_properties.

Section VoiceRecordComposerTile_samples.
Import Voice.

(** A recording started with a microphone present and then sent. *)
Example record_then_send :
  let w := sampleWorld (Resolved (Some {| audioinput := Some ["mic"%string];
                                          audiooutput := None;
                                          videoinput := None |})) in
  let r := sampleRecorder (Resolved (JS.ofAscii "mxc://a/b")) in
  effects (exec (send w sampleRoom)
                (exec (onRecordStartEndClick w) (@initial sampleNumbers)))
  = [CallGetDevices; StoreStartRecording; RecorderStart; RecorderOn;
     SetStateRecorder (Some r) (Some Started);
     RecorderStop; RecorderUpload;
     CallSendMessage "!room:example.org" (voiceMessage r (JS.ofAscii "mxc://a/b"));
     StoreDisposeRecording; SetStateRecorder None None].
Proof. reflexivity. Qed.

(** Two updates within one frame: one callback, one view update, from the
    second update; the frame after it finds nothing to do. *)
Example two_updates_one_flush :
  let u1 := {| update_waveform := [sampleNumber 1; sampleNumber 2];
               timeSeconds := sampleNumber 1 |} in
  let u2 := {| update_waveform := [sampleNumber 5; sampleNumber 6; sampleNumber 7];
               timeSeconds := sampleNumber 2 |} in
  effects (runLive [Update u1; Update u2; Frame; Frame] (@initial sampleNumbers))
  = [RequestAnimationFrame;
     SetStateLive [sampleNumber 5; sampleNumber 6; sampleNumber 7] (sampleNumber 2)].
Proof. reflexivity. Qed.

(** C6 at the sample tile: with a speaker and no microphone, and with an
    enumeration that fails. *)
Lemma start_without_microphone_witness :
  effects (exec (onRecordStartEndClick (sampleWorld (Resolved (Some sampleDevices))))
                (@initial sampleNumbers))
  = [CallGetDevices; CreateTrackedDialog NoMicrophoneError]
  /\ effects (exec (onRecordStartEndClick (sampleWorld (Rejected (Thrown 2))))
                   (@initial sampleNumbers))
     = [CallGetDevices; ConsoleError "Error getting devices: " (Thrown 2);
        CreateTrackedDialog MicrophoneAccessError].
Proof.
  split.
  - destruct (@start_without_microphone sampleNumbers
                (sampleWorld (Resolved (Some sampleDevices)))
                (@initial sampleNumbers) eq_refl) as [Hnone _].
    destruct (Hnone (Some sampleDevices) eq_refl) as (_ & Heff & _).
    + right. exists sampleDevices. split; [reflexivity|]. right. reflexivity.
    + exact Heff.
  - destruct (@start_without_microphone sampleNumbers
                (sampleWorld (Rejected (Thrown 2)))
                (@initial sampleNumbers) eq_refl) as [_ Hfail].
    destruct (Hfail (Thrown 2) eq_refl) as (_ & Heff & _).
    exact Heff.
Defined.

(** C7 as stated fails when the upload rejects: the send stops the recorder,
    starts the upload and ends there; no message is sent and the recording
    is not disposed of. *)
Lemma send_upload_rejected_not_disposed :
  recorder (sampleTile (Rejected (Thrown 3)))
  = Some (sampleRecorder (Rejected (Thrown 3)))
  /\ send (sampleWorld Pending) sampleRoom (sampleTile (Rejected (Thrown 3)))
     = (Rejected (Thrown 3),
        log RecorderUpload (log RecorderStop (sampleTile (Rejected (Thrown 3)))))
  /\ ~ In StoreDisposeRecording
         (effects (exec (send (sampleWorld Pending) sampleRoom)
                        (sampleTile (Rejected (Thrown 3))))).
Proof.
  split; [reflexivity|]. split; [reflexivity|].
  simpl. intros [Hx|[Hx|[]]]; discriminate.
Qed.

(** C7, as the code has it, at the sample tile whose upload resolves. *)
Lemma send_order_witness :
  exists rest,
    effects (exec (send (sampleWorld Pending) sampleRoom)
                  (sampleTile (Resolved (JS.ofAscii "mxc://a/b"))))
    = [RecorderStop; RecorderUpload;
       CallSendMessage (roomId sampleRoom)
         (voiceMessage (sampleRecorder (Resolved (JS.ofAscii "mxc://a/b")))
                       (JS.ofAscii "mxc://a/b"));
       StoreDisposeRecording] ++ rest.
Proof.
  destruct (@send_order sampleNumbers (sampleWorld Pending) sampleRoom
              (sampleTile (Resolved (JS.ofAscii "mxc://a/b")))
              (sampleRecorder (Resolved (JS.ofAscii "mxc://a/b"))) eq_refl)
    as [_ Hall].
  exact (Hall (JS.ofAscii "mxc://a/b") (Resolved tt) eq_refl eq_refl eq_refl).
Defined.

End VoiceRecordComposerTile_samples.


(* ================================================================== *)
(** * Further properties *)

(** ** RecoveryPanel: failed probes, evidence, and the buttons *)

Section RecoveryPanel_further.
Import Recovery.

Local Ltac run_check :=
  unfold checkEncryption, accessSecretStorage, onClick, setState, emit,
    clientWith, bind, await, ret, modify, gets, exec; simpl.

(** X1.  A probe that rejects or never answers ends the check there: the
    rejection is the outcome of the check, no state is set, and a failing
    first probe keeps the second from being asked.  In particular a panel
    mounted on such a client stays [loading]. *)
Theorem checkEncryption_failed_probe :
  forall (e : Exn) (key : list N) (probe2 : Outcome CrossSigningStatus) (p : Panel),
    checkEncryption (clientWith (Rejected e) probe2) p
    = (Rejected e,
       {| state := state p;
          effects := effects p ++ [CallGetSessionBackupPrivateKey] |})
    /\ checkEncryption (clientWith Pending probe2) p
       = (Pending,
          {| state := state p;
             effects := effects p ++ [CallGetSessionBackupPrivateKey] |})
    /\ checkEncryption (clientWith (Resolved (Some key)) (Rejected e)) p
       = (Rejected e,
          {| state := state p;
             effects := effects p ++ [CallGetSessionBackupPrivateKey;
                                      CallGetCrossSigningStatus] |})
    /\ checkEncryption (clientWith (Resolved (Some key)) Pending) p
       = (Pending,
          {| state := state p;
             effects := effects p ++ [CallGetSessionBackupPrivateKey;
                                      CallGetCrossSigningStatus] |})
    /\ state (mount (clientWith (Rejected e) probe2)) = loading
    /\ state (mount (clientWith Pending probe2)) = loading
    /\ state (mount (clientWith (Resolved (Some key)) (Rejected e))) = loading
    /\ state (mount (clientWith (Resolved (Some key)) Pending)) = loading.
Proof.
  intros e key probe2 p. unfold mount. run_check.
  rewrite <- !app_assoc. simpl. repeat split.
Qed.

(** X2.  The check changes the state only on evidence from the crypto API:
    it never sets [loading]; it ends in a state other than the one it
    started from only if the backup probe resolved, to [null] for
    [missing_backup], and otherwise to a key with the status probe resolved,
    with a key not cached for [secrets_not_cached] and all three cached for
    [good]. *)
Theorem checkEncryption_state_evidence :
  forall (client : MatrixClient) (p : Panel),
    let p' := exec (checkEncryption client) p in
    state p' = state p
    \/ exists crypto key,
         getCrypto client = Some crypto
         /\ getSessionBackupPrivateKey crypto = Resolved key
         /\ match state p' with
            | loading => False
            | missing_backup => key = None
            | secrets_not_cached =>
                key <> None
                /\ exists status,
                     getCrossSigningStatus crypto = Resolved status
                     /\ allCached status = false
            | good =>
                key <> None
                /\ exists status,
                     getCrossSigningStatus crypto = Resolved status
                     /\ allCached status = true
            end.
Proof.
  intros [[crypto|]] p; [|left; reflexivity].
  destruct crypto as [probe1 probe2]. run_check.
  destruct probe1 as [[k|]|e|]; simpl; try (left; reflexivity).
  - destruct probe2 as [status|e|]; simpl; try (left; reflexivity).
    destruct (masterKey (privateKeysCachedLocally status)
              && selfSigningKey (privateKeysCachedLocally status)
              && userSigningKey (privateKeysCachedLocally status)) eqn:Hall;
      simpl; right; eexists; eexists; (split; [reflexivity|]);
      (split; [reflexivity|]); (split; [discriminate|]);
      exists status; split; auto.
  - right. eexists; eexists. repeat split.
Qed.

Lemma clicks_missing_backup :
  forall client (us : list (Outcome unit)) (l : list Effect),
    clicks client us {| state := missing_backup; effects := l |}
    = {| state := missing_backup;
         effects := l ++ repeat OnSetUpRecoveryClick (length us) |}.
Proof.
  intros client us. induction us as [|u us IH]; intros l; simpl.
  - now rewrite app_nil_r.
  - run_check. rewrite IH. now rewrite <- app_assoc.
Qed.

Lemma clicks_good :
  forall client (us : list (Outcome unit)) (l : list Effect),
    clicks client us {| state := good; effects := l |}
    = {| state := good;
         effects := l ++ repeat OnChangingRecoveryKeyClick (length us) |}.
Proof.
  intros client us. induction us as [|u us IH]; intros l; simpl.
  - now rewrite app_nil_r.
  - run_check. rewrite IH. now rewrite <- app_assoc.
Qed.

(** X3.  From the mount to the click.  With no backup key the panel shows
    the "Set up recovery" button under a header tagged as recommended, and
    each click calls the set-up callback once and nothing else; with a
    backup key and all secrets cached it shows the "Change recovery key"
    button, and each click calls the change callback once and nothing else.
    The probes are not repeated. *)
Theorem buttons_call_their_callback :
  forall (probe2 : Outcome CrossSigningStatus) (key : list N)
         (status : CrossSigningStatus) (us : list (Outcome unit)),
    let none := clientWith (Resolved None) probe2 in
    let ok := clientWith (Resolved (Some key)) (Resolved status) in
    render (mount none)
    = {| content := SetUpRecoveryButton; hasRecommendedTag := true;
         keyStorageWarning := false |}
    /\ clicks none us (mount none)
       = {| state := missing_backup;
            effects := [CallGetSessionBackupPrivateKey; SetState missing_backup]
                       ++ repeat OnSetUpRecoveryClick (length us) |}
    /\ (allCached status = true ->
        render (mount ok)
        = {| content := ChangeRecoveryKeyButton; hasRecommendedTag := false;
             keyStorageWarning := false |}
        /\ clicks ok us (mount ok)
           = {| state := good;
                effects := [CallGetSessionBackupPrivateKey;
                            CallGetCrossSigningStatus; SetState good]
                           ++ repeat OnChangingRecoveryKeyClick (length us) |}).
Proof.
  intros probe2 key status us none ok. subst none ok.
  split; [reflexivity|]. split.
  - unfold mount. run_check. apply clicks_missing_backup.
  - intros Hall. destruct status as [pub sec [m s u]].
    unfold allCached in Hall. simpl in Hall.
    destruct m, s, u; try discriminate Hall.
    unfold mount. run_check. split; [reflexivity|]. apply clicks_good.
Qed.

(** X4.  In [secrets_not_cached] the panel warns about the key storage and
    its button asks for access to the secret storage, handing it the check.
    If the access fails nothing else happens, and the panel stays as it is;
    once it succeeds the check runs again, so that with all secrets now
    cached the panel becomes [good]. *)
Theorem enter_recovery_key_rechecks :
  forall (client : MatrixClient) (l : list Effect) (e : Exn),
    let p := {| state := secrets_not_cached; effects := l |} in
    let asked := {| state := secrets_not_cached;
                    effects := l ++ [CallAccessSecretStorage] |} in
    render p = {| content := EnterRecoveryKeyButton; hasRecommendedTag := false;
                  keyStorageWarning := true |}
    /\ onClick client (Rejected e) p = (Rejected e, asked)
    /\ onClick client Pending p = (Pending, asked)
    /\ onClick client (Resolved tt) p = checkEncryption client asked
    /\ (forall key status,
           allCached status = true ->
           state (exec (onClick (clientWith (Resolved (Some key)) (Resolved status))
                                (Resolved tt)) p) = good).
Proof.
  intros client l e p asked. subst p asked.
  split; [reflexivity|]. split; [reflexivity|]. split; [reflexivity|].
  split.
  - unfold onClick, accessSecretStorage, emit, bind, await, gets, modify. simpl.
    reflexivity.
  - intros key status Hall. destruct status as [pub sec [m s u]].
    unfold allCached in Hall. simpl in Hall.
    destruct m, s, u; try discriminate Hall. reflexivity.
Qed.

End RecoveryPanel_further.


(** ** ChangeRecoveryKey: the flow of the wizard *)

Section ChangeRecoveryKey_flow.
Import ChangeKey.

Lemma quiet_refl : forall i, quiet i i.
Proof. intros i. unfold quiet. auto. Qed.

Lemma quiet_trans : forall i1 i2 i3, quiet i1 i2 -> quiet i2 i3 -> quiet i1 i3.
Proof.
  intros i1 i2 i3 (H1 & H2 & H3) (H4 & H5 & H6). unfold quiet.
  repeat split; congruence.
Qed.

Lemma emit_quiet : forall e, within quiet (emit e).
Proof. intros e i. unfold emit, modify, quiet. simpl. auto. Qed.

Local Ltac quiet_walk :=
  repeat first
    [ apply within_ret; apply quiet_refl
    | apply within_await; apply quiet_refl
    | apply within_gets; apply quiet_refl
    | apply (within_bind quiet_trans); [|intros ?]
    | apply (within_try_catch quiet_trans); [|intros ?]
    | apply (within_try_finally quiet_trans)
    | apply (within_also quiet_trans)
    | apply emit_quiet ].

Lemma callOnCancelClick_quiet :
  forall props, within quiet (callOnCancelClick props).
Proof. intros props. unfold callOnCancelClick. quiet_walk. Qed.

Lemma onSubmit_quiet :
  forall props client key, within quiet (onSubmit props client key).
Proof.
  intros props client key. unfold onSubmit, callOnFinish.
  destruct (getCrypto client) as [crypto|];
    unfold withSecretStorageKeyCache; quiet_walk.
Qed.

Lemma render_shownKey_none :
  forall props client v st,
    shownKey v = None -> render props client v st = None.
Proof.
  intros props client v st. unfold shownKey, render.
  destruct v as [key|]; [|reflexivity].
  destruct (encodedPrivateKey key) as [encoded|]; [|reflexivity].
  destruct (JS.truthy encoded); [discriminate|reflexivity].
Qed.

Lemma render_shownKey_some :
  forall props client v st k,
    shownKey v = Some k ->
    exists key,
      v = Some key
      /\ encodedPrivateKey key = Some k
      /\ render props client v st
         = Some match st with
                | inform_user =>
                    InformationPanel (setState save_key_setup_flow)
                                     (callOnCancelClick props)
                | save_key_setup_flow
                | save_key_change_flow =>
                    KeyPanel k (setState confirm) (callOnCancelClick props)
                | confirm =>
                    KeyForm k (callOnCancelClick props)
                            (onSubmit props client key)
                end.
Proof.
  intros props client v st k. unfold shownKey, render.
  destruct v as [key|]; [|discriminate].
  destruct (encodedPrivateKey key) as [encoded|] eqn:Henc; [|discriminate].
  destruct (JS.truthy encoded) eqn:Ht; [|discriminate].
  intros Hk. injection Hk as ->. exists key.
  split; [reflexivity|]. split; [exact Henc|reflexivity].
Qed.

(** One event on a mounted wizard: the memo stays, the state makes one
    transition of the flow. *)
Lemma step_transition :
  forall props cev i v,
    recoveryKey i = Some ([], v) ->
    recoveryKey (step props cev i) = Some ([], v)
    /\ transition (state i) (state (step props cev i)).
Proof.
  intros props [client ev] i v Hm. unfold step. simpl.
  rewrite (render_mounted props client i Hm).
  destruct (shownKey v) as [k|] eqn:Hk.
  - destruct (@render_shownKey_some props client v (state i) k Hk)
      as (key & -> & Henc & ->).
    pose proof (callOnCancelClick_quiet props i) as (Hc1 & Hc2 & _).
    pose proof (onSubmit_quiet props client key i) as (Hs1 & Hs2 & _).
    pose proof (within_also quiet_trans (callOnCancelClick_quiet props)
                  (onSubmit_quiet props client key) i) as (Ha1 & Ha2 & _).
    unfold transition, exec.
    destruct (state i) eqn:Hst, ev; simpl;
      try (split; [exact Hm|left; exact Hst]);
      try (split; [congruence|left; congruence]);
      try (split; [exact Hm|auto]).
  - rewrite (@render_shownKey_none props client v (state i) Hk).
    split; [exact Hm|left; reflexivity].
Qed.

Lemma run_snoc :
  forall props evs cev i,
    run props (evs ++ [cev]) i = step props cev (run props evs i).
Proof. intros props evs cev i. unfold run. now rewrite fold_left_app. Qed.

Lemma run_app :
  forall props evs evs' i,
    run props (evs ++ evs') i = run props evs' (run props evs i).
Proof. intros props evs evs' i. unfold run. now rewrite fold_left_app. Qed.

Lemma run_mounted :
  forall props evs i v,
    recoveryKey i = Some ([], v) ->
    recoveryKey (run props evs i) = Some ([], v)
    /\ rank (state i) <= rank (state (run props evs i))
    /\ (state (run props evs i) = state i
        \/ (state i = inform_user
            /\ state (run props evs i) = save_key_setup_flow)
        \/ state (run props evs i) = confirm).
Proof.
  intros props evs. induction evs as [|cev evs IH]; intros i v Hm.
  - simpl. auto.
  - change (run props (cev :: evs) i) with (run props evs (step props cev i)).
    destruct (step_transition props cev i Hm) as [Hm' Ht].
    destruct (IH _ _ Hm') as (Hk & Hr & Hs).
    split; [exact Hk|].
    unfold transition in Ht.
    destruct Ht as [Ht|[[Ht1 Ht2]|[Ht1 Ht2]]].
    + rewrite Ht in Hr, Hs. auto.
    + rewrite Ht2 in Hr, Hs. rewrite Ht1. split; [simpl in *; lia|].
      destruct Hs as [Hs|[[Hs _]|Hs]]; auto. discriminate.
    + rewrite Ht2 in Hr, Hs.
      assert (Hc : state (run props evs (step props cev i)) = confirm).
      { destruct Hs as [Hs|[[Hs _]|Hs]]; auto. discriminate. }
      split; [|auto]. rewrite Hc. destruct (state i); simpl; lia.
Qed.

(** X5.  The transitions of the wizard: an event leaves the state as it is,
    or takes [inform_user] to [save_key_setup_flow], or a key screen to
    [confirm]; nothing else.  So the wizard never moves back, [confirm] is
    left by no event, and [confirm] is reached from the introduction only
    through a screen that displays the key. *)
Theorem wizard_transitions :
  forall (props : ChangeRecoveryKeyProps) (client : MatrixClient)
         (evs evs' : list (MatrixClient * UserEvent))
         (cev : MatrixClient * UserEvent),
    let i := run props evs (mount props client) in
    transition (state i) (state (step props cev i))
    /\ rank (state i) <= rank (state (run props evs' i))
    /\ (state i = confirm -> state (run props evs' i) = confirm)
    /\ (state i = inform_user ->
        state (step props cev i) <> confirm).
Proof.
  intros props client evs evs' cev i.
  destruct (mount_spec props client) as (Hm0 & _ & _).
  destruct (run_mounted props evs _ Hm0) as (Hm & _ & _). fold i in Hm.
  destruct (step_transition props cev i Hm) as [_ Ht].
  destruct (run_mounted props evs' i Hm) as (_ & Hr & Hs).
  repeat split; auto.
  - intros Hc. destruct Hs as [Hs|[[Hs _]|Hs]]; congruence.
  - intros Hi Hc. unfold transition in Ht.
    destruct Ht as [Ht|[[_ Ht]|[[Ht|Ht] _]]]; congruence.
Qed.

(** The sample setup wizard is in [confirm] after two clicks on "Continue"
    and stays there. *)
Lemma wizard_transitions_witness :
  state (run (sampleProps true)
             [(sampleClient Pending, Submit); (sampleClient Pending, ClickCancel)]
             (run (sampleProps true)
                  [(sampleClient Pending, ClickContinue);
                   (sampleClient Pending, ClickContinue)]
                  (mount (sampleProps true) (sampleClient Pending))))
  = confirm.
Proof.
  destruct (wizard_transitions (sampleProps true) (sampleClient Pending)
              [(sampleClient Pending, ClickContinue);
               (sampleClient Pending, ClickContinue)]
              [(sampleClient Pending, Submit); (sampleClient Pending, ClickCancel)]
              (sampleClient Pending, Submit)) as (_ & _ & Hc & _).
  exact (Hc eq_refl).
Defined.

(** X6.  The two flows keep to their own screens.  The setup flow is never
    in [save_key_change_flow], so it never shows the title of the change
    flow; the change flow is only ever in [save_key_change_flow] or
    [confirm], so it shows neither the introduction nor the setup title. *)
Theorem flows_keep_their_screens :
  forall (finish cancel : Outcome unit) (client : MatrixClient)
         (evs : list (MatrixClient * UserEvent)),
    let setup := {| isSetupFlow := true; onFinish := finish;
                    onCancelClick := cancel |} in
    let change := {| isSetupFlow := false; onFinish := finish;
                     onCancelClick := cancel |} in
    let s := state (run setup evs (mount setup client)) in
    let c := state (run change evs (mount change client)) in
    s <> save_key_change_flow
    /\ title (getLabels s)
       <> "settings|encryption|recovery|change_recovery_key_title"%string
    /\ (c = save_key_change_flow \/ c = confirm)
    /\ (title (getLabels c)
        = "settings|encryption|recovery|change_recovery_key_title"%string
        \/ title (getLabels c)
           = "settings|encryption|recovery|confirm_title"%string).
Proof.
  intros finish cancel client evs setup change s c.
  destruct (mount_spec setup client) as (Hms & Hss & _).
  destruct (mount_spec change client) as (Hmc & Hsc & _).
  destruct (run_mounted setup evs _ Hms) as (_ & _ & Hs). fold s in Hs.
  destruct (run_mounted change evs _ Hmc) as (_ & _ & Hc). fold c in Hc.
  rewrite Hss in Hs. rewrite Hsc in Hc. simpl in Hs, Hc.
  assert (Hs' : s = inform_user \/ s = save_key_setup_flow \/ s = confirm).
  { destruct Hs as [Hs|[[_ Hs]|Hs]]; auto. }
  assert (Hc' : c = save_key_change_flow \/ c = confirm).
  { destruct Hc as [Hc|[[Hc _]|Hc]]; auto. discriminate. }
  repeat split.
  - destruct Hs' as [->|[->| ->]]; discriminate.
  - destruct Hs' as [->|[->| ->]]; discriminate.
  - exact Hc'.
  - destruct Hc' as [->| ->]; auto.
Qed.

Lemma run_without_key :
  forall props client later evs,
    shownKey (settled client) = None ->
    fst (ChangeRecoveryKey props later (mount props client)) = Resolved None
    /\ run props evs (mount props client) = mount props client.
Proof.
  intros props client later evs Hnone.
  destruct (mount_spec props client) as (Hm & _ & _).
  split.
  - rewrite (render_mounted props later _ Hm). simpl.
    now rewrite (@render_shownKey_none props later _ _ Hnone).
  - induction evs as [|[c ev] evs IH]; [reflexivity|].
    change (run props ((c, ev) :: evs) (mount props client))
      with (run props evs (step props (c, ev) (mount props client))).
    assert (Hstep : step props (c, ev) (mount props client) = mount props client).
    { unfold step. simpl. rewrite (render_mounted props c _ Hm).
      now rewrite (@render_shownKey_none props c _ _ Hnone). }
    rewrite Hstep. exact IH.
Qed.

(** X7.  Without an encoded key the wizard renders nothing and no event
    does anything: when the client has no crypto API at the activation, when
    the key generation rejects or never answers, and when the generated key
    has no encoding or an empty one. *)
Theorem nothing_without_key :
  forall (props : ChangeRecoveryKeyProps) (client later : MatrixClient)
         (evs : list (MatrixClient * UserEvent)),
    shownKey (settled client) = None ->
    fst (ChangeRecoveryKey props later (mount props client)) = Resolved None
    /\ run props evs (mount props client) = mount props client.
Proof.
  intros props client later evs Hnone.
  now apply run_without_key.
Qed.

(** X7 at clients that leave the wizard without a key: no crypto API, and a
    key generation that rejects. *)
Lemma nothing_without_key_witness :
  run (sampleProps true) [({| getCrypto := None |}, ClickContinue)]
      (mount (sampleProps true) {| getCrypto := None |})
  = mount (sampleProps true) {| getCrypto := None |}
  /\ run (sampleProps false) [(sampleClient Pending, Submit)]
         (mount (sampleProps false)
                {| getCrypto := Some
                     {| createRecoveryKeyFromPassphrase := Rejected (Thrown 4);
                        bootstrapSecretStorage := fun _ => Pending |} |})
     = mount (sampleProps false)
             {| getCrypto := Some
                  {| createRecoveryKeyFromPassphrase := Rejected (Thrown 4);
                     bootstrapSecretStorage := fun _ => Pending |} |}.
Proof.
  split.
  - exact (proj2 (nothing_without_key (sampleProps true) {| getCrypto := None |}
                    {| getCrypto := None |}
                    [({| getCrypto := None |}, ClickContinue)] eq_refl)).
  - exact (proj2 (nothing_without_key (sampleProps false)
                    {| getCrypto := Some
                         {| createRecoveryKeyFromPassphrase := Rejected (Thrown 4);
                            bootstrapSecretStorage := fun _ => Pending |} |}
                    (sampleClient Pending)
                    [(sampleClient Pending, Submit)] eq_refl)).
Defined.



End ChangeRecoveryKey_flow.


(** ** ChangeRecoveryKey: what a commit takes *)

Section ChangeRecoveryKey_commit.
Import ChangeKey.



(** *** The log of a run *)

Lemma follows_refl : forall props v i, follows props v i i.
Proof.
  intros props v i. exists []. split; [now rewrite app_nil_r|constructor].
Qed.

Lemma follows_trans :
  forall props v i1 i2 i3,
    follows props v i1 i2 -> follows props v i2 i3 -> follows props v i1 i3.
Proof.
  intros props v i1 i2 i3 (l1 & H1 & F1) (l2 & H2 & F2).
  exists (l1 ++ l2). split.
  - now rewrite H2, H1, app_assoc.
  - apply Forall_app. auto.
Qed.

Lemma emit_follows :
  forall props v e, permitted props v e -> within (follows props v) (emit e).
Proof.
  intros props v e Hp i. exists [e]. split; [reflexivity|].
  constructor; [exact Hp|constructor].
Qed.

Lemma setState_follows :
  forall props v st,
    st = save_key_setup_flow \/ st = confirm ->
    within (follows props v) (setState st).
Proof.
  intros props v st Hst i. exists [SetState st]. split; [reflexivity|].
  constructor; [exact Hst|constructor].
Qed.

Lemma setIsKeyValid_follows :
  forall props v b, within (follows props v) (setIsKeyValid b).
Proof.
  intros props v b i. exists [SetIsKeyValid b]. split; [reflexivity|].
  constructor; [exact I|constructor].
Qed.

Local Ltac follows_walk props v :=
  repeat first
    [ apply within_ret; apply follows_refl
    | apply within_await; apply follows_refl
    | apply within_gets; apply follows_refl
    | apply (within_bind (@follows_trans props v)); [|intros ?]
    | apply (within_try_catch (@follows_trans props v)); [|intros ?]
    | apply (within_try_finally (@follows_trans props v))
    | apply (within_also (@follows_trans props v))
    | apply setIsKeyValid_follows
    | apply setState_follows; auto
    | apply emit_follows; first [exact I | eexists; split; reflexivity]
    | match goal with
      | |- within _ (if ?b then _ else _) => destruct b
      end ].

Lemma dispatch_follows :
  forall props client v st content ev,
    render props client v st = Some content ->
    within (follows props v) (dispatch content ev).
Proof.
  intros props client v st content ev Hr. unfold render in Hr.
  destruct v as [key|]; [|discriminate].
  destruct (encodedPrivateKey key) as [encoded|]; [|discriminate].
  destruct (negb (JS.truthy encoded)); [discriminate|].
  injection Hr as <-.
  destruct st, ev; simpl;
    unfold KeyForm_onChange, callOnCancelClick, onSubmit, callOnFinish,
      withSecretStorageKeyCache;
    try destruct (getCrypto client);
    follows_walk props (Some key).
Qed.

Lemma run_follows :
  forall props evs i v,
    recoveryKey i = Some ([], v) -> follows props v i (run props evs i).
Proof.
  intros props evs. induction evs as [|[client ev] evs IH]; intros i v Hm.
  - apply follows_refl.
  - change (run props ((client, ev) :: evs) i)
      with (run props evs (step props (client, ev) i)).
    destruct (step_transition props (client, ev) i Hm) as [Hm' _].
    eapply follows_trans; [|exact (IH _ _ Hm')].
    unfold step. simpl. rewrite (render_mounted props client i Hm).
    destruct (render props client v (state i)) as [content|] eqn:Hr.
    + exact (@dispatch_follows props client v (state i) content ev Hr i).
    + apply follows_refl.
Qed.

(** X10.  The log of the wizard only grows, and what a run adds to the log
    of the activation holds no further key generation, sets no state but
    [save_key_setup_flow] and [confirm], and asks for a bootstrap of the
    secret storage only with the options of the flow: a new secret storage,
    a new key backup exactly in the setup flow, and the generated key. *)
Theorem run_log :
  forall (props : ChangeRecoveryKeyProps) (client : MatrixClient)
         (evs : list (MatrixClient * UserEvent)),
    let i0 := mount props client in
    let i := run props evs i0 in
    (exists l, effects i = effects i0 ++ l
               /\ Forall (permitted props (settled client)) l)
    /\ (forall opts,
           In (CallBootstrapSecretStorage opts) (effects i) ->
           exists key,
             settled client = Some key
             /\ opts = {| setupNewKeyBackup := isSetupFlow props;
                          setupNewSecretStorage := true;
                          createSecretStorageKey := key |})
    /\ (forall st, In (SetState st) (effects i) ->
                   st = save_key_setup_flow \/ st = confirm).
Proof.
  intros props client evs i0 i.
  destruct (mount_spec props client) as (Hm0 & _ & He0). fold i0 in Hm0, He0.
  destruct (run_follows props evs i0 Hm0) as (l & Hl & Fl). fold i in Hl.
  assert (Hin : forall e, In e (effects i) ->
                          e = CallCreateRecoveryKeyFromPassphrase
                          \/ permitted props (settled client) e).
  { intros e He. rewrite Hl in He. apply in_app_or in He as [He|He].
    - rewrite He0 in He. destruct (getCrypto client); simpl in He.
      + destruct He as [He|[]]. auto.
      + destruct He.
    - right. rewrite Forall_forall in Fl. auto. }
  split; [exists l; auto|]. split.
  - intros opts Ho. destruct (Hin _ Ho) as [Hx|Hx]; [discriminate|exact Hx].
  - intros st Hs. destruct (Hin _ Hs) as [Hx|Hx]; [discriminate|exact Hx].
Qed.

(** X11.  The error message of the confirm form is shown exactly when a key
    has been entered and, trimmed, is not the recovery key: never on the
    untouched form, and never together with an enabled submit button. *)
Theorem error_message_iff_wrong_key :
  forall (recoveryKey : JS.DOMString) (i : Instance)
         (earlier : list JS.DOMString) (filledKey : JS.DOMString),
    let form := typed recoveryKey (earlier ++ [filledKey]) i in
    (forall props, isKeyInvalidAndFilled (initial props) = false)
    /\ (isKeyInvalidAndFilled form = true <-> JS.trim filledKey <> recoveryKey)
    /\ (forall j : Instance,
           isKeyInvalidAndFilled j = true -> submitDisabled j = true).
Proof.
  intros recoveryKey i earlier filledKey form. subst form.
  split; [reflexivity|]. split.
  - unfold isKeyInvalidAndFilled. rewrite typed_last.
    pose proof (strictEquals_spec (JS.trim filledKey) recoveryKey) as Hspec.
    destruct (JS.strictEquals (JS.trim filledKey) recoveryKey); split.
    + discriminate.
    + intros Hne. elim Hne. now apply Hspec.
    + intros _ Heq. apply Hspec in Heq. discriminate.
    + reflexivity.
  - intros j. unfold isKeyInvalidAndFilled, submitDisabled.
    destruct (isKeyValid j) as [[|]|]; auto; discriminate.
Qed.

End ChangeRecoveryKey_commit.


(** ** KeyForm and [trim] *)

Section KeyForm_trim.
Import ChangeKey.

Lemma trimStart_blank :
  forall ws, forallb JS.isTrimmed ws = true -> JS.trimStart ws = [].
Proof.
  induction ws as [|c ws IH]; simpl; [reflexivity|].
  intros Hws. apply andb_true_iff in Hws as [Hc Hws]. rewrite Hc. auto.
Qed.

Lemma trimStart_app_blank :
  forall ws s,
    forallb JS.isTrimmed ws = true -> JS.trimStart (ws ++ s) = JS.trimStart s.
Proof.
  induction ws as [|c ws IH]; intros s; simpl; [reflexivity|].
  intros Hws. apply andb_true_iff in Hws as [Hc Hws]. rewrite Hc. auto.
Qed.

Lemma trimStart_snoc_blank :
  forall s ws,
    forallb JS.isTrimmed ws = true ->
    JS.trimStart (s ++ ws)
    = match JS.trimStart s with
      | [] => []
      | c :: r => (c :: r) ++ ws
      end.
Proof.
  induction s as [|c s IH]; intros ws Hws; simpl.
  - now apply trimStart_blank.
  - destruct (JS.isTrimmed c); [now apply IH|reflexivity].
Qed.

Lemma forallb_rev :
  forall (f : N -> bool) l, forallb f l = true -> forallb f (rev l) = true.
Proof.
  intros f l Hl. rewrite forallb_forall in *.
  intros x Hx. apply Hl. now apply in_rev.
Qed.

Lemma trimEnd_app_blank :
  forall s ws,
    forallb JS.isTrimmed ws = true -> JS.trimEnd (s ++ ws) = JS.trimEnd s.
Proof.
  intros s ws Hws. unfold JS.trimEnd.
  rewrite rev_app_distr, trimStart_app_blank; [reflexivity|].
  now apply forallb_rev.
Qed.

Lemma trim_padding :
  forall ws s ws',
    forallb JS.isTrimmed ws = true ->
    forallb JS.isTrimmed ws' = true ->
    JS.trim (ws ++ s ++ ws') = JS.trim s.
Proof.
  intros ws s ws' Hws Hws'. unfold JS.trim.
  rewrite trimStart_app_blank by assumption.
  rewrite trimStart_snoc_blank by assumption.
  destruct (JS.trimStart s) as [|c r]; [reflexivity|].
  now apply trimEnd_app_blank.
Qed.

Lemma trimStart_head :
  forall s c r, JS.trimStart s = c :: r -> JS.isTrimmed c = false.
Proof.
  induction s as [|x s IH]; intros c r; simpl; [discriminate|].
  destruct (JS.isTrimmed x) eqn:Hx; [apply IH|].
  intros Hs. injection Hs as <- _. exact Hx.
Qed.

Lemma trimStart_snoc_solid :
  forall l d,
    JS.isTrimmed d = false -> JS.trimStart (l ++ [d]) = JS.trimStart l ++ [d].
Proof.
  induction l as [|c l IH]; intros d Hd; simpl.
  - now rewrite Hd.
  - destruct (JS.isTrimmed c); [now apply IH|reflexivity].
Qed.

(** What [trim] returns neither begins nor ends with a blank. *)
Lemma trim_ends_solid :
  forall s c r,
    (JS.trim s = c :: r \/ JS.trim s = r ++ [c]) -> JS.isTrimmed c = false.
Proof.
  intros s c r [Hs|Hs]; unfold JS.trim, JS.trimEnd in Hs.
  - destruct (JS.trimStart s) as [|d y] eqn:Hy; [discriminate|].
    pose proof (@trimStart_head s d y Hy) as Hd.
    simpl in Hs. rewrite (@trimStart_snoc_solid _ _ Hd) in Hs.
    rewrite rev_app_distr in Hs. simpl in Hs. injection Hs as <- _. exact Hd.
  - apply (f_equal (@rev N)) in Hs.
    rewrite rev_involutive, rev_app_distr in Hs. simpl in Hs.
    exact (@trimStart_head _ _ _ Hs).
Qed.

(** X12.  Blanks around the entered key do not count: padding what is
    entered with white space or line terminators, before and after, changes
    neither whether the submit button is enabled nor whether the error is
    shown.  Blanks inside the key are compared as they are. *)
Theorem padding_is_ignored :
  forall (recoveryKey ws filledKey ws' : JS.DOMString)
         (earlier : list JS.DOMString) (i : Instance),
    forallb JS.isTrimmed ws = true ->
    forallb JS.isTrimmed ws' = true ->
    let padded := typed recoveryKey (earlier ++ [ws ++ filledKey ++ ws']) i in
    let plain := typed recoveryKey (earlier ++ [filledKey]) i in
    submitDisabled padded = submitDisabled plain
    /\ isKeyInvalidAndFilled padded = isKeyInvalidAndFilled plain.
Proof.
  intros recoveryKey ws filledKey ws' earlier i Hws Hws' padded plain.
  subst padded plain.
  unfold submitDisabled, isKeyInvalidAndFilled.
  rewrite !typed_last, (@trim_padding ws filledKey ws' Hws Hws'). auto.
Qed.

(** The sample key pasted with a tab before and a line break after it
    enables the submit button. *)
Lemma padding_is_ignored_witness :
  submitDisabled
    (typed (JS.ofAscii "EsTc 5rr1")
           ([] ++ [[9%N] ++ JS.ofAscii "EsTc 5rr1" ++ [13%N; 10%N]])
           (initial (sampleProps true)))
  = false.
Proof.
  exact (eq_trans
           (proj1 (padding_is_ignored (JS.ofAscii "EsTc 5rr1") [9%N]
                     (JS.ofAscii "EsTc 5rr1") [13%N; 10%N] []
                     (initial (sampleProps true)) eq_refl eq_refl))
           eq_refl).
Defined.

(** X13.  A recovery key that itself begins or ends with a blank never
    enables the submit button: whatever is entered, the button is rendered
    disabled and the error message is shown.  (This is about the flag of
    the button only; the submission of the form does not depend on it.) *)
Theorem blank_ended_key_keeps_submit_disabled :
  forall (recoveryKey r : JS.DOMString) (c : N)
         (earlier : list JS.DOMString) (filledKey : JS.DOMString) (i : Instance),
    recoveryKey = c :: r \/ recoveryKey = r ++ [c] ->
    JS.isTrimmed c = true ->
    submitDisabled (typed recoveryKey (earlier ++ [filledKey]) i) = true
    /\ isKeyInvalidAndFilled (typed recoveryKey (earlier ++ [filledKey]) i) = true.
Proof.
  intros recoveryKey r c earlier filledKey i Hkey Hc.
  unfold submitDisabled, isKeyInvalidAndFilled. rewrite typed_last.
  destruct (JS.strictEquals (JS.trim filledKey) recoveryKey) eqn:Heq;
    [|split; reflexivity].
  apply strictEquals_spec in Heq.
  assert (Hsolid : JS.isTrimmed c = false).
  { apply (@trim_ends_solid filledKey c r). rewrite Heq. exact Hkey. }
  congruence.
Qed.

Lemma blank_ended_key_keeps_submit_disabled_witness :
  submitDisabled (typed [32%N; 65%N] ([] ++ [[32%N; 65%N]])
                        (initial (sampleProps false))) = true.
Proof.
  exact (proj1 (@blank_ended_key_keeps_submit_disabled [32%N; 65%N] [65%N]
                  32%N [] [32%N; 65%N] (initial (sampleProps false))
                  (or_introl eq_refl) eq_refl)).
Defined.

End KeyForm_trim.


(** ** VoiceRecordComposerTile: the other handlers *)

Section VoiceRecordComposerTile_further.
Import Voice.
Context `{Numbers}.

Local Ltac run_tile :=
  unfold onRecordStartEndClick, send, onCancel, disposeRecording,
    setStateRecorder, call, emit, try_catch, bind, await, ret, throw, modify,
    gets, exec;
  simpl.

(** X14.  A send while nothing is recorded throws "No recording started -
    cannot send anything" and does nothing: no collaborator is called and
    the tile is as it was. *)
Theorem send_without_recorder :
  forall (w : World) (room : Room) (t : Tile),
    recorder t = None ->
    send w room t
    = (Rejected (JsError "No recording started - cannot send anything"), t).
Proof.
  intros w room t Hrec. run_tile. now rewrite Hrec.
Qed.

(** X15.  Cancel asks the store to dispose of the recording and then resets
    the tile to no recorder and no phase, after which it renders as when
    nothing is recorded.  If the store fails, the rejection is the outcome
    and the tile keeps its recorder and phase.  In no case is the recorder
    stopped or uploaded, or a message sent. *)
Theorem cancel_disposes :
  forall (w : World) (t : Tile),
    let t' := exec (onCancel w) t in
    (storeDisposeRecording w = Resolved tt ->
     onCancel w t = (Resolved tt, t')
     /\ recorder t' = None
     /\ recordingPhase t' = None
     /\ effects t' = effects t ++ [StoreDisposeRecording;
                                   SetStateRecorder None None]
     /\ render t' = idleView)
    /\ (forall e,
           storeDisposeRecording w = Rejected e ->
           onCancel w t = (Rejected e, log StoreDisposeRecording t))
    /\ (forall x,
           In x (effects t') ->
           In x (effects t)
           \/ x = StoreDisposeRecording
           \/ x = SetStateRecorder None None).
Proof.
  intros w t t'. subst t'. run_tile.
  destruct (storeDisposeRecording w) as [[]|e|]; simpl; repeat split;
    try discriminate; try (now rewrite <- app_assoc).
  - intros x Hin. rewrite <- app_assoc in Hin.
    apply in_app_or in Hin as [Hin|[Hx|[Hx|[]]]]; auto.
  - intros e' He. now injection He as ->.
  - intros x Hin. apply in_app_or in Hin as [Hin|[Hx|[]]]; auto.
  - intros x Hin. apply in_app_or in Hin as [Hin|[Hx|[]]]; auto.
Qed.

(** X16.  A click while the tile holds a recorder only stops that recorder:
    the outcome is the one of the stop, the devices are not enumerated, the
    store is not asked for another recording, no dialog is shown, and the
    tile keeps its recorder and phase. *)
Theorem click_with_recorder_stops :
  forall (w : World) (t : Tile) (rec : VoiceRecording),
    recorder t = Some rec ->
    onRecordStartEndClick w t = (stop rec, log RecorderStop t).
Proof.
  intros w t rec Hrec. run_tile. rewrite Hrec. simpl.
  now destruct (stop rec) as [[]|e|].
Qed.

(** X17.  Starting with a microphone present: when the store hands out a
    recorder and its start resolves, the handler has asked, in this order,
    for the devices, for the recording, for the start, and has subscribed to
    the recorder; the tile then holds the recorder in phase [Started], no
    dialog was shown, and while the recorder is recording the tile renders
    the stop button, the delete button and the live waveform. *)
Theorem start_with_microphone :
  forall (w : World) (t : Tile) (d : IMediaDevices) (mic : string)
         (mics : list string) (rec : VoiceRecording),
    recorder t = None ->
    getDevices w = Resolved (Some d) ->
    audioinput d = Some (mic :: mics) ->
    startRecording w = Resolved rec ->
    start rec = Resolved tt ->
    let t' := exec (onRecordStartEndClick w) t in
    onRecordStartEndClick w t = (Resolved tt, t')
    /\ recorder t' = Some rec
    /\ recordingPhase t' = Some Started
    /\ effects t' = effects t ++ [CallGetDevices; StoreStartRecording;
                                  RecorderStart; RecorderOn;
                                  SetStateRecorder (Some rec) (Some Started)]
    /\ (isRecording rec = true ->
        render t'
        = {| deleteButton := true;
             waveformArea := LiveRecording (seconds t) (relHeights t);
             recordingInfo :=
               Some {| isComposerButton := false; isStopButton := true;
                       tooltip := "Stop the recording" |} |}).
Proof.
  intros w t d mic mics rec Hrec Hd Hmic Hstore Hstart t'. subst t'.
  run_tile. rewrite Hrec, Hd. simpl.
  unfold audioInputLength. rewrite Hmic. simpl.
  rewrite Hstore. simpl. rewrite Hstart. simpl.
  rewrite <- !app_assoc. simpl. repeat split.
  intros Hr. unfold render, renderWaveformArea. simpl. now rewrite Hr.
Qed.

(** X18.  Starting with a microphone present but a recording that cannot be
    started, because the store throws or because the start of the recorder
    rejects: the error is written to the console, the "microphone access"
    dialog is shown, and the store is asked to dispose of the recording;
    the handler itself resolves, and the tile holds no recorder. *)
Theorem start_failure_disposes :
  forall (w : World) (t : Tile) (d : IMediaDevices) (mic : string)
         (mics : list string) (e : Exn),
    recorder t = None ->
    getDevices w = Resolved (Some d) ->
    audioinput d = Some (mic :: mics) ->
    let t' := exec (onRecordStartEndClick w) t in
    let failed := [ConsoleError "Error starting recording: " e;
                   CreateTrackedDialog MicrophoneAccessError;
                   StoreDisposeRecording] in
    (startRecording w = Rejected e ->
     onRecordStartEndClick w t = (Resolved tt, t')
     /\ recorder t' = None
     /\ effects t' = effects t ++ [CallGetDevices; StoreStartRecording] ++ failed)
    /\ (forall rec,
           startRecording w = Resolved rec ->
           start rec = Rejected e ->
           onRecordStartEndClick w t = (Resolved tt, t')
           /\ recorder t' = None
           /\ effects t' = effects t ++ [CallGetDevices; StoreStartRecording;
                                         RecorderStart] ++ failed).
Proof.
  intros w t d mic mics e Hrec Hd Hmic t' failed. subst t' failed.
  split.
  - intros Hstore. run_tile. rewrite Hrec, Hd. simpl.
    unfold audioInputLength. rewrite Hmic. simpl.
    rewrite Hstore. simpl. rewrite <- !app_assoc. simpl. repeat split; auto.
  - intros rec Hstore Hstart. run_tile. rewrite Hrec, Hd. simpl.
    unfold audioInputLength. rewrite Hmic. simpl.
    rewrite Hstore. simpl. rewrite Hstart. simpl.
    rewrite <- !app_assoc. simpl. repeat split; auto.
Qed.

(** X21.  A send that goes through, with the stop and the upload resolving,
    the call that sends the message returning and the store disposing of
    the recording, leaves the tile without recorder and phase, rendering as
    when nothing is recorded; the message it sent carries the URI the upload
    resolved to, in both places, and as many waveform samples as the
    playback has. *)
Theorem send_completes_idle :
  forall (w : World) (room : Room) (t : Tile) (rec : VoiceRecording)
         (mxc : JS.DOMString) (sent : Outcome unit),
    recorder t = Some rec ->
    stop rec = Resolved tt ->
    upload rec = Resolved mxc ->
    sendMessage w = Resolved sent ->
    storeDisposeRecording w = Resolved tt ->
    let t' := exec (send w room) t in
    send w room t = (Resolved tt, t')
    /\ recorder t' = None
    /\ recordingPhase t' = None
    /\ render t' = idleView
    /\ effects t' = effects t ++ sendSequence room (voiceMessage rec mxc)
    /\ url (voiceMessage rec mxc) = mxc
    /\ file_url (msc1767_file (voiceMessage rec mxc)) = mxc
    /\ length (msc1767_audio_waveform (voiceMessage rec mxc))
       = length (playbackWaveform rec).
Proof.
  intros w room t rec mxc sent Hrec Hstop Hup Hsend Hdisp t'. subst t'.
  run_tile. rewrite Hrec. simpl. rewrite Hstop. simpl. rewrite Hup. simpl.
  rewrite Hsend. simpl. rewrite Hdisp. simpl.
  rewrite <- !app_assoc. simpl. repeat split.
  apply length_map.
Qed.

(** *** The listener of the recorder *)

Lemma onRecorderEvent_spec :
  forall (ev : RecordingState) (t : Tile),
    recorder (exec (onRecorderEvent ev) t) = recorder t
    /\ recordingPhase (exec (onRecorderEvent ev) t)
       = lastShownPhase [ev] (recordingPhase t).
Proof.
  intros ev t. destruct ev; simpl; auto.
Qed.

(** X19.  The phase the tile shows follows the recorder, except that
    [EndingSoon] is ignored: after any events of the recorder the phase is
    the last one emitted other than [EndingSoon] (the earlier phase if there
    was none), so it is never [EndingSoon] unless it was before; the
    recorder held is not changed. *)
Theorem listener_ignores_ending_soon :
  forall (evs : list RecordingState) (t : Tile),
    recorder (recorderEvents evs t) = recorder t
    /\ recordingPhase (recorderEvents evs t)
       = lastShownPhase evs (recordingPhase t)
    /\ (recordingPhase t <> Some EndingSoon ->
        recordingPhase (recorderEvents evs t) <> Some EndingSoon).
Proof.
  induction evs as [|ev evs IH]; intros t.
  - simpl. auto.
  - change (recorderEvents (ev :: evs) t)
      with (recorderEvents evs (exec (onRecorderEvent ev) t)).
    change (lastShownPhase (ev :: evs) (recordingPhase t))
      with (lastShownPhase evs (lastShownPhase [ev] (recordingPhase t))).
    destruct (onRecorderEvent_spec ev t) as [Hr Hp].
    destruct (IH (exec (onRecorderEvent ev) t)) as (IHr & IHp & IHn).
    rewrite IHr, IHp, Hr, Hp. repeat split.
    intros Hne. rewrite <- Hp, <- IHp. apply IHn. rewrite Hp.
    destruct ev; simpl; try discriminate. exact Hne.
Qed.

(** *** No update is lost *)

Local Ltac run_live :=
  unfold live, animationFrame, onRecordingUpdate, flush, takeFrameCallbacks,
    requestAnimationFrame, storeUpdate, setScheduled, setStateLive,
    bind, ret, modify, gets, exec;
  simpl.

Lemma live_caughtUp :
  forall (ev : LiveEvent) (t : Tile) (last : option IRecordingUpdate),
    caughtUp last t -> caughtUp (lastUpdate [ev] last) (exec (live ev) t).
Proof.
  intros [u|] t last [Hc Hl]; unfold caughtUp.
  - run_live. destruct (scheduledAnimationFrame t) eqn:Hs; simpl.
    + repeat split; auto; discriminate.
    + rewrite Hc. repeat split; auto; discriminate.
  - run_live. destruct (scheduledAnimationFrame t) eqn:Hs; rewrite Hc; simpl.
    + split; [reflexivity|].
      destruct last as [u|].
      * destruct Hl as (Hw & Ht & _). unfold bars. rewrite Hw, Ht. auto.
      * destruct Hl as (Hx & _). discriminate.
    + split; [reflexivity|]. exact Hl.
Qed.

Lemma runLive_caughtUp :
  forall (evs : list LiveEvent) (t : Tile) (last : option IRecordingUpdate),
    caughtUp last t -> caughtUp (lastUpdate evs last) (runLive evs t).
Proof.
  induction evs as [|ev evs IH]; intros t last Hc; [exact Hc|].
  change (runLive (ev :: evs) t) with (runLive evs (exec (live ev) t)).
  change (lastUpdate (ev :: evs) last)
    with (lastUpdate evs (lastUpdate [ev] last)).
  apply IH. now apply live_caughtUp.
Qed.

Lemma frame_idle :
  forall t : Tile,
    scheduledAnimationFrame t = false ->
    frameCallbacks t = 0 ->
    exec animationFrame t = t.
Proof.
  intros t Hs Hf. destruct t. simpl in *. subst. reflexivity.
Qed.

(** X20.  No update is lost: after any updates and frames, once a frame has
    run the view shows the last update received, its waveform resampled and
    gain-adjusted and its time (and what the constructor set if there was no
    update); no flush is waiting then, and a further frame changes nothing. *)
Theorem last_update_is_shown :
  forall evs : list LiveEvent,
    let t := runLive (evs ++ [Frame]) initial in
    match lastUpdate evs None with
    | Some u => relHeights t = bars u /\ seconds t = timeSeconds u
    | None => relHeights t = relHeights initial /\ seconds t = seconds initial
    end
    /\ scheduledAnimationFrame t = false
    /\ frameCallbacks t = 0
    /\ exec animationFrame t = t.
Proof.
  intros evs t.
  assert (H0 : caughtUp None initial) by (unfold caughtUp; simpl; auto).
  pose proof (runLive_caughtUp (evs ++ [Frame]) H0) as [Hc Hl].
  fold t in Hc, Hl.
  assert (Hlast : lastUpdate (evs ++ [Frame]) None = lastUpdate evs None).
  { unfold lastUpdate. now rewrite fold_left_app. }
  rewrite Hlast in Hl.
  assert (Hs : scheduledAnimationFrame t = false).
  { assert (Ht : t = exec animationFrame (runLive evs initial)).
    { subst t. unfold runLive. now rewrite fold_left_app. }
    pose proof (runLive_caughtUp evs H0) as [Hc1 _].
    rewrite Ht. run_live.
    destruct (scheduledAnimationFrame (runLive evs initial)) eqn:Hs1;
      rewrite Hc1; simpl; auto. }
  assert (Hf : frameCallbacks t = 0) by (now rewrite Hc, Hs).
  split; [|split; [exact Hs|split; [exact Hf|now apply frame_idle]]].
  destruct (lastUpdate evs None) as [u|].
  - destruct Hl as (_ & _ & Hv). now apply Hv.
  - destruct Hl as (_ & Hv). exact Hv.
Qed.

End VoiceRecordComposerTile_further.

Section VoiceRecordComposerTile_further_samples.
Import Voice.

Lemma send_without_recorder_witness :
  send (sampleWorld Pending) sampleRoom (@initial sampleNumbers)
  = (Rejected (JsError "No recording started - cannot send anything"),
     @initial sampleNumbers).
Proof.
  exact (@send_without_recorder sampleNumbers (sampleWorld Pending) sampleRoom
           (@initial sampleNumbers) eq_refl).
Defined.

Lemma click_with_recorder_stops_witness :
  onRecordStartEndClick (sampleWorld Pending) (sampleTile Pending)
  = (Resolved tt, log RecorderStop (sampleTile Pending)).
Proof.
  exact (@click_with_recorder_stops sampleNumbers (sampleWorld Pending)
           (sampleTile Pending) (sampleRecorder Pending) eq_refl).
Defined.

(** A machine with a microphone, and a world whose store throws. *)
Lemma start_with_microphone_witness :
  recorder
    (exec (onRecordStartEndClick
             (sampleWorld (Resolved (Some {| audioinput := Some ["mic"%string];
                                             audiooutput := None;
                                             videoinput := None |}))))
          (@initial sampleNumbers))
  = Some (sampleRecorder (Resolved (JS.ofAscii "mxc://a/b"))).
Proof.
  destruct (@start_with_microphone sampleNumbers
              (sampleWorld (Resolved (Some {| audioinput := Some ["mic"%string];
                                              audiooutput := None;
                                              videoinput := None |})))
              (@initial sampleNumbers)
              {| audioinput := Some ["mic"%string]; audiooutput := None;
                 videoinput := None |}
              "mic"%string []
              (sampleRecorder (Resolved (JS.ofAscii "mxc://a/b")))
              eq_refl eq_refl eq_refl eq_refl eq_refl) as (_ & Hr & _).
  exact Hr.
Defined.

Lemma start_failure_disposes_witness :
  effects
    (exec (onRecordStartEndClick
             {| getDevices := Resolved (Some {| audioinput := Some ["mic"%string];
                                                audiooutput := None;
                                                videoinput := None |});
                startRecording := Rejected (Thrown 5);
                storeDisposeRecording := Resolved tt;
                sendMessage := Pending |})
          (@initial sampleNumbers))
  = [CallGetDevices; StoreStartRecording;
     ConsoleError "Error starting recording: " (Thrown 5);
     CreateTrackedDialog MicrophoneAccessError; StoreDisposeRecording].
Proof.
  destruct (@start_failure_disposes sampleNumbers
              {| getDevices := Resolved (Some {| audioinput := Some ["mic"%string];
                                                 audiooutput := None;
                                                 videoinput := None |});
                 startRecording := Rejected (Thrown 5);
                 storeDisposeRecording := Resolved tt;
                 sendMessage := Pending |}
              (@initial sampleNumbers)
              {| audioinput := Some ["mic"%string]; audiooutput := None;
                 videoinput := None |}
              "mic"%string [] (Thrown 5)
              eq_refl eq_refl eq_refl) as [Hthrow _].
  destruct (Hthrow eq_refl) as (_ & _ & Heff).
  exact Heff.
Defined.

Lemma send_completes_idle_witness :
  render (exec (send (sampleWorld Pending) sampleRoom)
               (sampleTile (Resolved (JS.ofAscii "mxc://a/b"))))
  = @idleView sampleNumbers.
Proof.
  destruct (@send_completes_idle sampleNumbers (sampleWorld Pending) sampleRoom
              (sampleTile (Resolved (JS.ofAscii "mxc://a/b")))
              (sampleRecorder (Resolved (JS.ofAscii "mxc://a/b")))
              (JS.ofAscii "mxc://a/b") (Resolved tt)
              eq_refl eq_refl eq_refl eq_refl eq_refl) as (_ & _ & _ & Hv & _).
  exact Hv.
Defined.

End VoiceRecordComposerTile_further_samples.
